(** * Fotoserver: the upload, listing and deletion handlers of [main.py]

    A shallow embedding of the request handlers of the image server
    ([upload_file], [images_page], [delete_selected], [delete_image])
    together with the parts of the Python runtime they call: [os.path.join],
    [os.path.splitext], [os.path.exists], [os.remove], [os.listdir],
    [open(.., "wb")], [sorted], list slicing and [uuid.uuid4().hex].

    Modelling choices.
    - Python [str] is [string], the bytes of its UTF-8 encoding; a file name
      that is not valid UTF-8 is the [str] that [os.listdir] makes of it
      (file system encoding UTF-8, error handler [surrogateescape]), and
      [sorted] compares strings code point by code point.
    - Python [int] is [Z] (unbounded).
    - The file system is a finite map from absolute paths (lists of
      components below the root) to nodes, a node being a regular file with
      its bytes or a directory.  There are no symbolic links.  The root
      directory always exists.
    - Path lookup follows POSIX: every component but the last must name a
      directory; [""] and ["."] stay in place and [".."] moves to the parent.
      Where a file is created, [open] also refuses a path with a NUL byte,
      a path of [PATH_MAX] bytes or more and a component of more than
      [NAME_MAX] bytes (Linux: 4096 and 255).  In a file system whose
      entries keep to these limits nothing is found under such a name.
    - Handlers run in a state-and-exception monad over the file system and
      the log.  An exception that no handler catches ends the request; what
      was written before it stays written.
    - The log is kept apart from the file system.
    - The sixteen random bytes that [uuid.uuid4] draws from [os.urandom] are
      an explicit argument of [upload_file]. *)

From Stdlib Require Import ZArith List String Ascii Lia.
From Stdlib.Strings Require Import Byte.
From stdpp Require Import base option list gmap strings sorting.

Local Open Scope string_scope.
Local Open Scope Z_scope.
Local Open Scope list_scope.

(** ** Python strings *)

Module Str.

Definition sep : ascii := "/"%char.
Definition extsep : ascii := "."%char.

(** [len(s)] *)
Definition len (s : string) : Z := Z.of_nat (String.length s).

(** [c in s] for a one-character [c] *)
Fixpoint contains (c : ascii) (s : string) : bool :=
  match s with
  | EmptyString => false
  | String x s' => if Ascii.eqb x c then true else contains c s'
  end.

(** [s.startswith(c)] *)
Definition startswith (c : ascii) (s : string) : bool :=
  match s with
  | EmptyString => false
  | String x _ => Ascii.eqb x c
  end.

(** [s.endswith(c)] *)
Fixpoint endswith (c : ascii) (s : string) : bool :=
  match s with
  | EmptyString => false
  | String x EmptyString => Ascii.eqb x c
  | String _ s' => endswith c s'
  end.

(** [s.rfind(c)]: the highest index of [c] in [s], or [-1]. *)
Fixpoint rfind_from (c : ascii) (s : string) (i last : Z) : Z :=
  match s with
  | EmptyString => last
  | String x s' => rfind_from c s' (i + 1) (if Ascii.eqb x c then i else last)
  end.

Definition rfind (c : ascii) (s : string) : Z := rfind_from c s 0 (-1).

(** [s[:n]] and [s[n:]] for [0 <= n]. *)
Fixpoint take (n : nat) (s : string) : string :=
  match n, s with
  | S n', String x s' => String x (take n' s')
  | _, _ => EmptyString
  end.

Fixpoint drop (n : nat) (s : string) : string :=
  match n, s with
  | S n', String _ s' => drop n' s'
  | _, _ => s
  end.

(** [s[i:i+1]] for [0 <= i]: one character, or the empty string past the
    end. *)
Definition at_index (s : string) (i : Z) : string := take 1 (drop (Z.to_nat i) s).

(** [s.split("/")] *)
Fixpoint split (c : ascii) (s : string) : list string :=
  match s with
  | EmptyString => [EmptyString]
  | String x s' =>
      if Ascii.eqb x c then EmptyString :: split c s'
      else match split c s' with
           | [] => [String x EmptyString]
           | w :: ws => String x w :: ws
           end
  end.

(** A string of [n] copies of [c]. *)
Fixpoint replicate (n : nat) (c : ascii) : string :=
  match n with
  | O => EmptyString
  | S n' => String c (replicate n' c)
  end.

Fixpoint forallb (f : ascii -> bool) (s : string) : bool :=
  match s with
  | EmptyString => true
  | String x s' => f x && forallb f s'
  end.

End Str.

(** ** [os.path] (posixpath) *)

(** [os.path.join(a, b)] *)
Definition os_path_join (a b : string) : string :=
  if Str.startswith Str.sep b then b
  else if (String.eqb a "" || Str.endswith Str.sep a)%bool then a +:+ b
  else a +:+ "/" +:+ b.

(** The loop of [genericpath._splitext] that skips the leading dots of the
    last component; [n] is its trip count [dotIndex - filenameIndex]. *)
Fixpoint splitext_loop (p : string) (dotIndex : Z) (n : nat) (filenameIndex : Z)
  : option (string * string) :=
  match n with
  | O => None
  | S n' =>
      if negb (String.eqb (Str.at_index p filenameIndex) ".") then
        Some (Str.take (Z.to_nat dotIndex) p, Str.drop (Z.to_nat dotIndex) p)
      else splitext_loop p dotIndex n' (filenameIndex + 1)
  end.

(** [os.path.splitext(p)] *)
Definition os_path_splitext (p : string) : string * string :=
  let sepIndex := Str.rfind Str.sep p in
  let dotIndex := Str.rfind Str.extsep p in
  if sepIndex <? dotIndex then
    let filenameIndex := sepIndex + 1 in
    match splitext_loop p dotIndex (Z.to_nat (dotIndex - filenameIndex)) filenameIndex with
    | Some r => r
    | None => (p, "")
    end
  else (p, "").

(** ** [uuid.uuid4().hex] *)

Module UUID.

(** [int.from_bytes(bs, "big")] *)
Definition int_from_bytes (bs : list byte) : Z :=
  fold_left (fun acc b => acc * 256 + Z.of_N (Byte.to_N b)) bs 0.

(** [UUID(bytes=bs, version=4).int]: the variant and version bits are
    forced, the other 122 bits are the random ones. *)
Definition uuid4_int (bs : list byte) : Z :=
  let int := int_from_bytes bs in
  let int := Z.land int (Z.lnot (Z.shiftl 0xc000 48)) in
  let int := Z.lor int (Z.shiftl 0x8000 48) in
  let int := Z.land int (Z.lnot (Z.shiftl 0xf000 64)) in
  Z.lor int (Z.shiftl 4 76).

Definition hexdigit (d : Z) : ascii :=
  match String.get (Z.to_nat d) "0123456789abcdef" with
  | Some c => c
  | None => "0"%char
  end.

(** Number of hexadecimal digits of [n >= 0] (one digit for zero). *)
Definition hex_len (n : Z) : nat :=
  if n =? 0 then 1%nat else S (Z.to_nat (Z.log2 n / 4)).

(** ['%x' % n] for [n >= 0], most significant digit first. *)
Definition format_x (n : Z) : string :=
  string_of_list_ascii
    (map (fun i => hexdigit (Z.land (Z.shiftr n (4 * Z.of_nat i)) 15))
         (rev (seq 0 (hex_len n)))).

(** ['%032x' % n] *)
Definition format_032x (n : Z) : string :=
  let s := format_x n in
  Str.replicate (32 - String.length s) "0" +:+ s.

(** [uuid.uuid4().hex], given the bytes of [os.urandom(16)]. *)
Definition uuid4_hex (urandom : list byte) : string :=
  format_032x (uuid4_int urandom).

Definition is_hexdigit (c : ascii) : bool :=
  Str.contains c "0123456789abcdef".

End UUID.

(** ** Built-ins: [sorted] and list slicing *)

(** The code points of a [str] given by its bytes: UTF-8 decoding in which
    every byte that starts no valid sequence becomes the lone surrogate
    [U+DC00 + byte], as [os.fsdecode] does with [surrogateescape]. *)
Module Unicode.

Definition continuation (b : Z) : bool := (0x80 <=? b) && (b <=? 0xBF).

Definition escape (b : Z) : Z := 0xDC00 + b.

(** The second byte that a three-byte or four-byte sequence allows after
    the first byte [b0]: no overlong form, no surrogate, nothing above
    [U+10FFFF]. *)
Definition second_of_three (b0 b1 : Z) : bool :=
  if b0 =? 0xE0 then (0xA0 <=? b1) && (b1 <=? 0xBF)
  else if b0 =? 0xED then (0x80 <=? b1) && (b1 <=? 0x9F)
  else continuation b1.

Definition second_of_four (b0 b1 : Z) : bool :=
  if b0 =? 0xF0 then (0x90 <=? b1) && (b1 <=? 0xBF)
  else if b0 =? 0xF4 then (0x80 <=? b1) && (b1 <=? 0x8F)
  else continuation b1.

Fixpoint decode (bs : list Z) : list Z :=
  match bs with
  | [] => []
  | b0 :: rest =>
      if b0 <? 0x80 then b0 :: decode rest
      else
        match rest with
        | b1 :: rest1 =>
            if (0xC2 <=? b0) && (b0 <=? 0xDF) && continuation b1 then
              Z.lor (Z.shiftl (Z.land b0 0x1F) 6) (Z.land b1 0x3F) :: decode rest1
            else
              match rest1 with
              | b2 :: rest2 =>
                  if (0xE0 <=? b0) && (b0 <=? 0xEF) && second_of_three b0 b1
                     && continuation b2 then
                    Z.lor (Z.shiftl (Z.land b0 0x0F) 12)
                      (Z.lor (Z.shiftl (Z.land b1 0x3F) 6) (Z.land b2 0x3F))
                    :: decode rest2
                  else
                    match rest2 with
                    | b3 :: rest3 =>
                        if (0xF0 <=? b0) && (b0 <=? 0xF4) && second_of_four b0 b1
                           && continuation b2 && continuation b3 then
                          Z.lor (Z.shiftl (Z.land b0 0x07) 18)
                            (Z.lor (Z.shiftl (Z.land b1 0x3F) 12)
                               (Z.lor (Z.shiftl (Z.land b2 0x3F) 6) (Z.land b3 0x3F)))
                          :: decode rest3
                        else escape b0 :: decode rest
                    | [] => escape b0 :: decode rest
                    end
              | [] => escape b0 :: decode rest
              end
        | [] => escape b0 :: decode rest
        end
  end.

Definition code_points (s : string) : list Z :=
  decode (map (fun c => Z.of_nat (nat_of_ascii c)) (list_ascii_of_string s)).

(** [a <= b] on sequences of code points, lexicographic. *)
Fixpoint lex_leb (a b : list Z) : bool :=
  match a, b with
  | [], _ => true
  | _ :: _, [] => false
  | x :: a', y :: b' =>
      if x <? y then true else if y <? x then false else lex_leb a' b'
  end.

(** [a <= b] on Python strings. *)
Definition str_le (a b : string) : Prop :=
  lex_leb (code_points a) (code_points b) = true.

End Unicode.

#[global] Instance str_le_dec : RelDecision Unicode.str_le :=
  fun a b => decide (Unicode.lex_leb (Unicode.code_points a) (Unicode.code_points b) = true).

(** [sorted(l)] on strings: ascending, lexicographic by code point. *)
Definition sorted (l : list string) : list string := merge_sort Unicode.str_le l.

(** How CPython clamps one bound of [l[start:stop]] on a list of length
    [n]: a negative index counts from the end. *)
Definition slice_index (n i : Z) : Z :=
  if i <? 0 then Z.max (i + n) 0 else Z.min i n.

(** [l[start:stop]] *)
Definition py_slice {A} (l : list A) (start stop : Z) : list A :=
  let n := Z.of_nat (length l) in
  let lo := slice_index n start in
  let hi := slice_index n stop in
  take (Z.to_nat (hi - lo)) (drop (Z.to_nat lo) l).

(** ** The file system *)

Inductive node :=
  | File (data : list byte)
  | Dir.

(** An absolute path without [.] or [..]: the components below the root. *)
Abbreviation abspath := (list string) (only parsing).
Abbreviation filesystem := (gmap (list string) node).

(** The exceptions a request can end with.  [FileNotFoundError],
    [NotADirectoryError] and [IsADirectoryError] are the subclasses of
    [OSError] that the calls below raise; [OSError errno] is an [OSError]
    without a subclass of its own. *)
Inductive exn :=
  | HTTPException (status_code : Z) (detail : string)
  | FileNotFoundError
  | NotADirectoryError
  | IsADirectoryError
  | OSError (errno : Z)
  | ValueError.

Definition ENAMETOOLONG : Z := 36.

Inductive outcome (A : Type) :=
  | Return (a : A)
  | Raise (e : exn).
Arguments Return {A} a.
Arguments Raise {A} e.

Module FS.

(** What is at [p], the root being a directory. *)
Definition lstat (fs : filesystem) (p : abspath) : option node :=
  match p with
  | [] => Some Dir
  | _ => fs !! p
  end.

Definition is_dir (fs : filesystem) (p : abspath) : bool :=
  match lstat fs p with
  | Some Dir => true
  | _ => false
  end.

(** One component of a path lookup, from directory [cur]. *)
Definition step (cur : abspath) (c : string) : abspath :=
  if String.eqb c "" then cur
  else if String.eqb c "." then cur
  else if String.eqb c ".." then removelast cur
  else cur ++ [c].

(** Path lookup: each component is searched in [cur], which must be a
    directory.  The path reached by the last component need not exist. *)
Fixpoint walk (fs : filesystem) (cur : abspath) (comps : list string)
  : outcome abspath :=
  match comps with
  | [] => Return cur
  | c :: rest =>
      match lstat fs cur with
      | Some Dir => walk fs (step cur c) rest
      | Some (File _) => Raise NotADirectoryError
      | None => Raise FileNotFoundError
      end
  end.

(** The absolute path that the string [path] names for a process whose
    working directory is [cwd]. *)
Definition resolve (fs : filesystem) (cwd : abspath) (path : string)
  : outcome abspath :=
  if String.eqb path "" then Raise FileNotFoundError
  else walk fs (if Str.startswith Str.sep path then [] else cwd)
            (Str.split Str.sep path).

(** The limits of the kernel on one component and on a whole path, the
    second counted with the closing NUL. *)
Definition NAME_MAX : Z := 255.
Definition PATH_MAX : Z := 4096.

(** Path lookup with the limits: a component that is too long is refused
    when it is searched in its directory. *)
Fixpoint walk_limited (fs : filesystem) (cur : abspath) (comps : list string)
  : outcome abspath :=
  match comps with
  | [] => Return cur
  | c :: rest =>
      match lstat fs cur with
      | Some Dir =>
          if NAME_MAX <? Str.len c then Raise (OSError ENAMETOOLONG)
          else walk_limited fs (step cur c) rest
      | Some (File _) => Raise NotADirectoryError
      | None => Raise FileNotFoundError
      end
  end.

Definition resolve_limited (fs : filesystem) (cwd : abspath) (path : string)
  : outcome abspath :=
  if String.eqb path "" then Raise FileNotFoundError
  else if PATH_MAX <=? Str.len path then Raise (OSError ENAMETOOLONG)
  else walk_limited fs (if Str.startswith Str.sep path then [] else cwd)
                    (Str.split Str.sep path).

(** The entry name of [k] when [k] lies directly in directory [p]. *)
Definition child_of (p k : abspath) : option string :=
  match drop (length p) k with
  | [n] => if bool_decide (take (length p) k = p) then Some n else None
  | _ => None
  end.

Definition children (fs : filesystem) (p : abspath) : list string :=
  omap (child_of p) (map_to_list fs).*1.

End FS.

(** ** Process state and the handler monad *)

Inductive level := INFO | ERROR.

Record state := State {
  fs : filesystem;
  log : list (level * string)
}.

(** The settings read at start-up from [.env], and the working directory
    that relative paths start from. *)
Record settings := Settings {
  UPLOAD_DIR : string;
  MAX_FILE_SIZE_MB : Z;
  cwd : abspath
}.

Definition M (A : Type) : Type := state -> outcome A * state.

#[global] Instance M_ret : MRet M := fun A a st => (Return a, st).
#[global] Instance M_bind : MBind M := fun A B f m st =>
  match m st with
  | (Return a, st') => f a st'
  | (Raise e, st') => (Raise e, st')
  end.

Definition raise {A} (e : exn) : M A := fun st => (Raise e, st).

Definition lift {A} (o : outcome A) : M A := fun st => (o, st).

Definition get_fs : M filesystem := fun st => (Return (fs st), st).

Definition put_fs (fs' : filesystem) : M unit :=
  fun st => (Return tt, {| fs := fs'; log := log st |}).

(** [logging.info(msg)] and [logging.error(msg)] *)
Definition logging_info (msg : string) : M unit :=
  fun st => (Return tt, {| fs := fs st; log := log st ++ [(INFO, msg)] |}).

Definition logging_error (msg : string) : M unit :=
  fun st => (Return tt, {| fs := fs st; log := log st ++ [(ERROR, msg)] |}).

(** ** [os] and [open] *)

Section OS.

Variable cfg : settings.

(** [os.path.exists(path)]: [os.stat] succeeded; any [OSError] is
    caught and answered [False]. *)
Definition os_path_exists (path : string) : M bool :=
  f ← get_fs;
  match FS.resolve f (cwd cfg) path with
  | Return p => mret (bool_decide (is_Some (FS.lstat f p)))
  | Raise _ => mret false
  end.

(** [os.remove(path)]: unlinks a regular file, refuses a directory. *)
Definition os_remove (path : string) : M unit :=
  f ← get_fs;
  p ← lift (FS.resolve f (cwd cfg) path);
  match FS.lstat f p with
  | Some (File _) => put_fs (delete p f)
  | Some Dir => raise IsADirectoryError
  | None => raise FileNotFoundError
  end.

(** [os.listdir(path)]: the entry names of a directory, in no
    particular order. *)
Definition os_listdir (path : string) : M (list string) :=
  f ← get_fs;
  p ← lift (FS.resolve f (cwd cfg) path);
  match FS.lstat f p with
  | Some Dir => mret (FS.children f p)
  | Some (File _) => raise NotADirectoryError
  | None => raise FileNotFoundError
  end.

(** [with open(path, "wb") as buffer: shutil.copyfileobj(src, buffer)]:
    creates the file or truncates an existing one, then writes [data].
    Python refuses a path with a NUL byte before it calls the kernel. *)
Definition write_file (path : string) (data : list byte) : M unit :=
  if Str.contains Ascii.zero path then raise ValueError
  else
    f ← get_fs;
    p ← lift (FS.resolve_limited f (cwd cfg) path);
    match FS.lstat f p with
    | Some Dir => raise IsADirectoryError
    | _ =>
        match FS.lstat f (removelast p) with
        | Some Dir => put_fs (<[p := File data]> f)
        | Some (File _) => raise NotADirectoryError
        | None => raise FileNotFoundError
        end
    end.

End OS.

(** ** The request handlers of [main.py] *)

(** A multipart upload as the handler sees it: the client's file name, the
    declared media type (absent when the part has no [Content-Type]) and
    the bytes of the spooled file. *)
Record UploadFile := {
  filename : string;
  content_type : option string;
  file : list byte
}.

(** [{"url": ...}] *)
Record upload_response := { url : string }.

(** [{"name": ..., "url": ...}] *)
Record image := { img_name : string; img_url : string }.

(** The context handed to the [images.html] template. *)
Record images_context := {
  images : list image;
  page : Z;
  has_next : bool
}.

(** [{"deleted": ..., "not_found": ...}] *)
Record delete_selected_response := {
  deleted : list string;
  not_found : list string
}.

(** [{"detail": ...}] *)
Record delete_response := { detail : string }.

Definition allowed_types : list string := ["image/jpeg"; "image/png"; "image/gif"].

(** [file.content_type in {"image/jpeg", "image/png", "image/gif"}] *)
Definition content_type_allowed (t : option string) : bool :=
  match t with
  | Some s => bool_decide (s ∈ allowed_types)
  | None => false
  end.

Definition per_page : Z := 50.

Section Handlers.

Variable cfg : settings.

(** [POST /upload] *)
Definition upload_file (f : UploadFile) (urandom : list byte) : M upload_response :=
  if negb (content_type_allowed (content_type f)) then
    logging_error ("Ошибка: неподдерживаемый формат файла (" +:+ filename f +:+ ")");;
    raise (HTTPException 400 "Неподдерживаемый тип файла")
  else
    let file_size := Z.of_nat (length (file f)) in
    if file_size >? MAX_FILE_SIZE_MB cfg * 1024 * 1024 then
      logging_error ("Ошибка: файл " +:+ filename f +:+ " превышает размер");;
      raise (HTTPException 400 "Файл превышает допустимый размер")
    else
      let ext := snd (os_path_splitext (filename f)) in
      let unique_name := UUID.uuid4_hex urandom +:+ ext in
      let file_path := os_path_join (UPLOAD_DIR cfg) unique_name in
      write_file cfg file_path (file f);;
      logging_info ("Успех: изображение " +:+ unique_name +:+ " загружено.");;
      mret {| url := "/images/" +:+ unique_name |}.

(** [GET /images?page=<page>] *)
Definition images_page (page : Z) : M images_context :=
  entries ← os_listdir cfg (UPLOAD_DIR cfg);
  let files := sorted entries in
  let total_files := Z.of_nat (length files) in
  let start := (page - 1) * per_page in
  let end_ := start + per_page in
  let paginated_files := py_slice files start end_ in
  let images := map (fun f => {| img_name := f; img_url := "/images/" +:+ f |})
                    paginated_files in
  let has_next := end_ <? total_files in
  mret {| images := images; page := page; has_next := has_next |}.

(** The body of the [for] loop of [delete_selected], with the two
    accumulators it appends to. *)
Fixpoint delete_selected_loop (filenames deleted not_found : list string)
  : M (list string * list string) :=
  match filenames with
  | [] => mret (deleted, not_found)
  | filename :: rest =>
      let file_path := os_path_join (UPLOAD_DIR cfg) filename in
      found ← os_path_exists cfg file_path;
      if (found : bool) then
        os_remove cfg file_path;;
        logging_info ("Файл " +:+ filename +:+ " удалён.");;
        delete_selected_loop rest (deleted ++ [filename]) not_found
      else
        logging_error ("Ошибка: файл " +:+ filename +:+ " не найден при удалении.");;
        delete_selected_loop rest deleted (not_found ++ [filename])
  end.

(** [POST /delete-selected] *)
Definition delete_selected (filenames : list string) : M delete_selected_response :=
  '(deleted, not_found) ← delete_selected_loop filenames [] [];
  mret {| deleted := deleted; not_found := not_found |}.

(** [POST /delete/{filename}] *)
Definition delete_image (filename : string) : M delete_response :=
  let file_path := os_path_join (UPLOAD_DIR cfg) filename in
  found ← os_path_exists cfg file_path;
  if (found : bool) then
    os_remove cfg file_path;;
    logging_info ("Файл " +:+ filename +:+ " удалён.");;
    mret {| detail := "Файл удалён" |}
  else
    logging_error ("Ошибка: файл " +:+ filename +:+ " не найден при удалении.");;
    raise (HTTPException 404 "Файл не найден").

End Handlers.

(** The defaults of [main.py]: [UPLOAD_DIR = "images"] and
    [MAX_FILE_SIZE_MB = 5]; the server is started in [/app]. *)
Definition default_settings : settings :=
  {| UPLOAD_DIR := "images"; MAX_FILE_SIZE_MB := 5; cwd := ["app"] |}.

(** ** Concrete worlds used by the examples *)

(** [/app/images] holding one picture, next to [/etc/passwd]. *)
Definition fs_small : filesystem :=
  <[ ["app"; "images"; "a.png"] := File [x89; x50; x4e; x47]%byte ]>
  (<[ ["app"; "images"] := Dir ]>
  (<[ ["app"] := Dir ]>
  (<[ ["etc"; "passwd"] := File [x72; x6f; x6f; x74]%byte ]>
  (<[ ["etc"] := Dir ]> ∅)))).

Definition st_small : state := {| fs := fs_small; log := [] |}.

(** Two decimal digits of [n < 100]. *)
Definition two_digits (n : nat) : string :=
  String (ascii_of_nat (48 + n / 10)) (String (ascii_of_nat (48 + n mod 10)) "").

(** [/app/images] holding [n] pictures [f00.png], [f01.png], ... *)
Definition fs_gallery (n : nat) : filesystem :=
  foldr (fun i acc => <[ ["app"; "images"; "f" +:+ two_digits i +:+ ".png"] := File [] ]> acc)
        (<[ ["app"; "images"] := Dir ]> (<[ ["app"] := Dir ]> ∅))
        (seq 0 n).

Definition st_gallery (n : nat) : state := {| fs := fs_gallery n; log := [] |}.

Definition urandom_example : list byte :=
  [x00; x01; x02; x03; x04; x05; x06; x07; x08; x09; x0a; x0b; x0c; x0d; x0e; x0f]%byte.

(** ** Vocabulary of the properties *)

(** A name without a path separator. *)
Definition no_sep (n : string) : Prop := Str.contains Str.sep n = false.

(** A bare file name: no path separator and not the parent segment. *)
Definition bare (n : string) : Prop := no_sep n ∧ n ≠ "..".

(** A name that a directory entry can have. *)
Definition entry_name (n : string) : Prop :=
  no_sep n ∧ n ≠ "" ∧ n ≠ "." ∧ n ≠ "..".


(** What a path string designates in a file system. *)
Inductive target :=
  | TFile (p : abspath)
  | TDir
  | TNone.

Definition classify (cfg : settings) (f : filesystem) (path : string) : target :=
  match FS.resolve f (cwd cfg) path with
  | Return p =>
      match FS.lstat f p with
      | Some (File _) => TFile p
      | Some Dir => TDir
      | None => TNone
      end
  | Raise _ => TNone
  end.

(** The two file systems have the same directories. *)
Definition same_dirs (f f' : filesystem) : Prop :=
  ∀ p, FS.lstat f p = Some Dir ↔ FS.lstat f' p = Some Dir.



(** The entries of [l] at the indices [i] with [lo <= i < hi]. *)
Definition window {A} (l : list A) (lo hi : Z) : list A :=
  (filter (fun ix => lo <= Z.of_nat ix.1 < hi) (imap pair l)).*2.

(** The page [k] of a sorted listing, as the listing contract words it:
    the indices from [(k-1)*50] up to [(k-1)*50 + 50]. *)
Definition page_window (l : list string) (k : Z) : list string :=
  window l ((k - 1) * 50) ((k - 1) * 50 + 50).

(** The last page that shows a file when [n] files are stored. *)
Definition last_populated_page (n : Z) : Z := (n + 49) / 50.

(** The suffix of [s] that starts at its last dot, or the empty string
    when [s] has no dot. *)
Fixpoint last_dot_suffix (s : string) : string :=
  match s with
  | EmptyString => EmptyString
  | String x s' =>
      if Str.contains Str.extsep s' then last_dot_suffix s'
      else if Ascii.eqb x Str.extsep then s
      else EmptyString
  end.

Definition is_dot (c : ascii) : bool := Ascii.eqb c Str.extsep.

(** [s] without its leading dots. *)
Fixpoint lstrip_dots (s : string) : string :=
  match s with
  | String x s' => if Ascii.eqb x Str.extsep then lstrip_dots s' else s
  | EmptyString => EmptyString
  end.

(** The part of [p] after its last separator. *)
Definition basename (p : string) : string := List.last (Str.split Str.sep p) "".

(** The extension as [os.path.splitext] understands it: the last-dot
    suffix of the final component once its leading dots are set aside. *)
Definition extension (p : string) : string :=
  last_dot_suffix (lstrip_dots (basename p)).

(** The path has no NUL byte, is shorter than [PATH_MAX] and has no
    component longer than [NAME_MAX]: [open] does not refuse it. *)
Definition within_limits (path : string) : bool :=
  negb (Str.contains Ascii.zero path)
  && (Str.len path <? FS.PATH_MAX)
  && forallb (fun c => Str.len c <=? FS.NAME_MAX) (Str.split Str.sep path).

(** An upload that passes both checks of [upload_file]. *)
Definition accepted (cfg : settings) (f : UploadFile) : Prop :=
  content_type_allowed (content_type f) = true ∧
  Z.of_nat (length (file f)) <= MAX_FILE_SIZE_MB cfg * 1024 * 1024.

(** ** The contracts as the specification words them *)

Section Contracts.

Variable cfg : settings.





(** An oversize upload is answered with the size error. *)
Definition oversize_answer_is_size_error
    (f : UploadFile) (urandom : list byte) (st : state) : Prop :=
  (upload_file cfg f urandom st).1 =
  Raise (HTTPException 400 "Файл превышает допустимый размер").

(** The listing shows exactly the window of the requested page. *)
Definition listing_shows_page_window (st : state) (k : Z) : Prop :=
  ∀ entries,
    (os_listdir cfg (UPLOAD_DIR cfg) st).1 = Return entries →
    ∃ ctx, (images_page cfg k st).1 = Return ctx ∧
           map img_name (images ctx) = page_window (sorted entries) k.

End Contracts.

(** ** More concrete inputs *)

(** A text file one byte over the default limit of five mebibytes. *)
Definition oversize_text : UploadFile :=
  {| filename := "notes.txt";
     content_type := Some "text/plain";
     file := replicate (Z.to_nat (5 * 1024 * 1024 + 1)) x00%byte |}.

(** A picture of exactly five mebibytes. *)
Definition full_size_png : UploadFile :=
  {| filename := "photo.png";
     content_type := Some "image/png";
     file := replicate (Z.to_nat (5 * 1024 * 1024)) x00%byte |}.


Definition cat_gif : UploadFile :=
  {| filename := "my.cat.gif";
     content_type := Some "image/gif";
     file := [x47; x49; x46]%byte |}.

(** ** Vocabulary of the further properties *)

(** The names shown on page [k] of the gallery (none when the listing
    fails). *)
Definition page_names (cfg : settings) (st : state) (k : Z) : list string :=
  match (images_page cfg k st).1 with
  | Return ctx => map img_name (images ctx)
  | Raise _ => []
  end.

(** The name under which [upload_file] stores an upload. *)
Definition unique_name (f : UploadFile) (urandom : list byte) : string :=
  UUID.uuid4_hex urandom +:+ (os_path_splitext (filename f)).2.

(** Deleting the names one request at a time with [delete_image]. *)
Definition delete_one_by_one (cfg : settings) (names : list string) (st : state) : state :=
  foldl (fun s n => (delete_image cfg n s).2) st names.

(** * Properties *)

(** ** Strings *)

Lemma app_String (x : ascii) (s t : string) : String x s +:+ t = String x (s +:+ t).
Proof. reflexivity. Qed.

Lemma app_empty_l (s : string) : "" +:+ s = s.
Proof. reflexivity. Qed.

Lemma app_empty_r (s : string) : s +:+ "" = s.
Proof. induction s as [|x s IH]; [done|]. by rewrite app_String, IH. Qed.

Lemma app_assoc_str (s t u : string) : (s +:+ t) +:+ u = s +:+ (t +:+ u).
Proof. induction s as [|x s IH]; [done|]. by rewrite !app_String, IH. Qed.

Lemma length_app_str (s t : string) :
  String.length (s +:+ t) = (String.length s + String.length t)%nat.
Proof. induction s as [|x s IH]; [done|]. rewrite app_String. simpl. by rewrite IH. Qed.

Lemma contains_app (c : ascii) (s t : string) :
  Str.contains c (s +:+ t) = (Str.contains c s || Str.contains c t)%bool.
Proof.
  induction s as [|x s IH]; [done|].
  rewrite app_String. simpl. by destruct (Ascii.eqb x c).
Qed.

Lemma split_nonempty (c : ascii) (s : string) : Str.split c s ≠ [].
Proof.
  induction s as [|x s IH]; simpl; [done|].
  destruct (Ascii.eqb x c); [done|]. by destruct (Str.split c s).
Qed.

Lemma split_no_sep (c : ascii) (s : string) :
  Str.contains c s = false → Str.split c s = [s].
Proof.
  induction s as [|x s IH]; simpl; [done|].
  destruct (Ascii.eqb x c); [done|]. intros H. by rewrite (IH H).
Qed.

(** Splitting at a separator that is known to be there. *)
Lemma split_app_sep (c : ascii) (s t : string) :
  Str.split c (s +:+ String c t) = Str.split c s ++ Str.split c t.
Proof.
  induction s as [|x s IH].
  - rewrite app_empty_l. simpl. by rewrite Ascii.eqb_refl.
  - rewrite app_String. simpl. destruct (Ascii.eqb x c); [by rewrite IH|].
    rewrite IH. pose proof (split_nonempty c s).
    by destruct (Str.split c s).
Qed.

Lemma endswith_inv (c : ascii) (s : string) :
  Str.endswith c s = true → ∃ s', s = s' +:+ String c "".
Proof.
  induction s as [|x s IH]; [done|].
  destruct s as [|y s].
  - simpl. intros ->%Ascii.eqb_eq. by exists "".
  - intros H. destruct (IH H) as [s' Hs']. exists (String x s').
    by rewrite app_String, <- Hs'.
Qed.

Lemma startswith_app (c : ascii) (s t : string) :
  s ≠ "" → Str.startswith c (s +:+ t) = Str.startswith c s.
Proof. by destruct s. Qed.

Lemma app_eq_empty (s t : string) : s +:+ t = "" → s = "".
Proof. by destruct s. Qed.

(** ** Path lookup *)

Lemma walk_app (f : filesystem) (cur : abspath) (xs ys : list string) :
  FS.walk f cur (xs ++ ys) =
  match FS.walk f cur xs with
  | Return p => FS.walk f p ys
  | Raise e => Raise e
  end.
Proof.
  revert cur. induction xs as [|x xs IH]; intros cur; simpl; [done|].
  destruct (FS.lstat f cur) as [[]|]; auto.
Qed.

Lemma walk_same_dirs (f f' : filesystem) (cur p : abspath) (comps : list string) :
  same_dirs f f' → FS.walk f cur comps = Return p → FS.walk f' cur comps = Return p.
Proof.
  intros Hd. revert cur. induction comps as [|c comps IH]; intros cur; simpl; [done|].
  destruct (FS.lstat f cur) as [[]|] eqn:E; try done.
  apply Hd in E. rewrite E. apply IH.
Qed.

Lemma resolve_same_dirs (f f' : filesystem) (cwd : abspath) (path : string) (p : abspath) :
  same_dirs f f' → FS.resolve f cwd path = Return p → FS.resolve f' cwd path = Return p.
Proof.
  unfold FS.resolve. intros Hd. destruct (String.eqb path ""); [done|].
  by apply walk_same_dirs.
Qed.

Lemma same_dirs_refl (f : filesystem) : same_dirs f f.
Proof. by intros p. Qed.


Lemma same_dirs_trans (f1 f2 f3 : filesystem) :
  same_dirs f1 f2 → same_dirs f2 f3 → same_dirs f1 f3.
Proof. intros H1 H2 p. etrans; [apply H1|apply H2]. Qed.

Lemma lstat_delete_ne (f : filesystem) (p q : abspath) :
  p ≠ q → FS.lstat (delete q f) p = FS.lstat f p.
Proof. intros Hne. destruct p; [done|]. simpl. by rewrite lookup_delete_ne. Qed.

(** Unlinking a regular file leaves the directories as they are. *)
Lemma same_dirs_delete_file (f : filesystem) (q : abspath) (d : list byte) :
  FS.lstat f q = Some (File d) → same_dirs f (delete q f).
Proof.
  intros Hq p. destruct (decide (p = q)) as [->|Hne].
  - rewrite Hq. destruct q; [done|]. simpl. rewrite lookup_delete_eq. by split.
  - by rewrite lstat_delete_ne.
Qed.

(** Writing a regular file where no directory is leaves the directories
    as they are. *)
Lemma same_dirs_insert_file (f : filesystem) (q : abspath) (d : list byte) :
  FS.lstat f q ≠ Some Dir → same_dirs f (<[q := File d]> f).
Proof.
  intros Hq p. destruct (decide (p = q)) as [->|Hne].
  - destruct q; [done|]. simpl in *. rewrite lookup_insert_eq. by split.
  - destruct p; [done|]. simpl. by rewrite lookup_insert_ne.
Qed.

Lemma step_entry_name (cur : abspath) (n : string) :
  n ≠ "" → n ≠ "." → n ≠ ".." → FS.step cur n = cur ++ [n].
Proof.
  intros H1 H2 H3. unfold FS.step.
  by rewrite (proj2 (String.eqb_neq _ _) H1), (proj2 (String.eqb_neq _ _) H2),
             (proj2 (String.eqb_neq _ _) H3).
Qed.

(** The path that [os.path.join] builds from the storage directory and a
    name without separator is looked up as that name inside the storage
    directory. *)
Lemma resolve_join (f : filesystem) (cwd storage : abspath) (dir n : string) :
  FS.resolve f cwd dir = Return storage →
  no_sep n →
  FS.resolve f cwd (os_path_join dir n) = FS.walk f storage [n].
Proof.
  unfold FS.resolve, os_path_join, no_sep. intros Hdir Hn.
  destruct (String.eqb_spec dir "") as [->|Hne]; [done|].
  assert (Str.startswith Str.sep n = false) as ->.
  { destruct n as [|x n]; [done|]. simpl in *. by destruct (Ascii.eqb x Str.sep). }
  simpl. destruct (Str.endswith Str.sep dir) eqn:Hend.
  - apply endswith_inv in Hend as [d' ->].
    rewrite app_assoc_str, app_String, app_empty_l.
    destruct (String.eqb_spec (d' +:+ String Str.sep n) "") as [E|_].
    { by destruct d'. }
    assert (Str.startswith Str.sep (d' +:+ String Str.sep n)
            = Str.startswith Str.sep (d' +:+ String Str.sep "")) as ->.
    { by destruct d'. }
    rewrite split_app_sep in Hdir |- *. rewrite (split_no_sep _ n Hn).
    rewrite walk_app in Hdir |- *.
    destruct (FS.walk f _ (Str.split Str.sep d')) as [q|e]; [|done].
    simpl in Hdir |- *. destruct (FS.lstat f q) as [[]|] eqn:Hq; try done.
    inversion Hdir; subst. unfold FS.step at 2. simpl. by rewrite Hq.
  - change (dir +:+ "/" +:+ n) with (dir +:+ String Str.sep n).
    destruct (String.eqb_spec (dir +:+ String Str.sep n) "") as [E|_].
    { by apply app_eq_empty in E. }
    rewrite startswith_app by done.
    rewrite split_app_sep, (split_no_sep _ n Hn), walk_app.
    by rewrite Hdir.
Qed.

Lemma resolve_join_entry (f : filesystem) (cwd storage : abspath) (dir n : string) :
  FS.resolve f cwd dir = Return storage →
  FS.lstat f storage = Some Dir →
  entry_name n →
  FS.resolve f cwd (os_path_join dir n) = Return (storage ++ [n]).
Proof.
  intros Hdir Hst (Hn & H1 & H2 & H3).
  rewrite (resolve_join _ _ storage) by done.
  simpl. by rewrite Hst, step_entry_name.
Qed.

(** [FS.children] lists exactly the names of the entries of a directory. *)
Lemma elem_of_children (f : filesystem) (p : list string) (n : string) :
  n ∈ FS.children f p ↔ is_Some (f !! (p ++ [n])).
Proof.
  unfold FS.children. rewrite list_elem_of_omap. split.
  - intros (k & Hk & Hc). apply list_elem_of_fmap in Hk as ([k' x] & -> & Hx).
    apply elem_of_map_to_list in Hx. simpl in Hc. unfold FS.child_of in Hc.
    destruct (drop (length p) k') as [|m [|]] eqn:Hd; try done.
    case_bool_decide as Ht; [|done]. injection Hc as ->.
    rewrite <- (take_drop (length p) k'), Ht, Hd in Hx. eauto.
  - intros [x Hx]. exists (p ++ [n]). split.
    + apply list_elem_of_fmap. exists (p ++ [n], x). split; [done|].
      by apply elem_of_map_to_list.
    + unfold FS.child_of. rewrite drop_app_length, take_app_length.
      by rewrite bool_decide_eq_true_2.
Qed.

(** ** One deletion attempt *)

Section Deletion.

Variable cfg : settings.

Lemma bind_run {A B : Type} (m : M A) (k : A → M B) (st : state) :
  (m ≫= k) st =
  match m st with
  | (Return a, st') => k a st'
  | (Raise e, st') => (Raise e, st')
  end.
Proof. reflexivity. Qed.

Lemma classify_TFile (f : filesystem) (path : string) (p : abspath) :
  classify cfg f path = TFile p ↔
  FS.resolve f (cwd cfg) path = Return p ∧ ∃ d, FS.lstat f p = Some (File d).
Proof.
  unfold classify. destruct (FS.resolve f (cwd cfg) path) as [q|e].
  - destruct (FS.lstat f q) as [[d|]|] eqn:E;
      (split; [intros ?|intros [? [d' ?]]]); simplify_eq; eauto.
  - split; [done|]. by intros [? _].
Qed.

Lemma classify_TDir (f : filesystem) (path : string) :
  classify cfg f path = TDir ↔
  ∃ p, FS.resolve f (cwd cfg) path = Return p ∧ FS.lstat f p = Some Dir.
Proof.
  unfold classify. destruct (FS.resolve f (cwd cfg) path) as [q|e].
  - destruct (FS.lstat f q) as [[d|]|] eqn:E;
      (split; [intros ?|intros (p & ? & ?)]); simplify_eq; eauto.
  - split; [done|]. by intros (? & ? & _).
Qed.

Lemma os_path_exists_run (path : string) (st : state) :
  os_path_exists cfg path st =
  (Return (match classify cfg (fs st) path with TNone => false | _ => true end), st).
Proof.
  unfold os_path_exists, classify, mbind, M_bind, get_fs, mret, M_ret.
  destruct (FS.resolve (fs st) (cwd cfg) path) as [p|e]; [|done].
  by destruct (FS.lstat (fs st) p) as [[]|].
Qed.

Lemma os_remove_run (path : string) (st : state) :
  os_remove cfg path st =
  match FS.resolve (fs st) (cwd cfg) path with
  | Return p =>
      match FS.lstat (fs st) p with
      | Some (File _) => (Return tt, {| fs := delete p (fs st); log := log st |})
      | Some Dir => (Raise IsADirectoryError, st)
      | None => (Raise FileNotFoundError, st)
      end
  | Raise e => (Raise e, st)
  end.
Proof.
  unfold os_remove, mbind, M_bind, get_fs, lift, put_fs, raise.
  destruct (FS.resolve (fs st) (cwd cfg) path) as [p|e]; [|done].
  by destruct (FS.lstat (fs st) p) as [[]|].
Qed.

(** [delete_image] by what the joined path designates. *)
Lemma delete_image_run (n : string) (st : state) :
  delete_image cfg n st =
  match classify cfg (fs st) (os_path_join (UPLOAD_DIR cfg) n) with
  | TFile p =>
      (Return {| detail := "Файл удалён" |},
       {| fs := delete p (fs st);
          log := log st ++ [(INFO, "Файл " +:+ n +:+ " удалён.")] |})
  | TDir => (Raise IsADirectoryError, st)
  | TNone =>
      (Raise (HTTPException 404 "Файл не найден"),
       {| fs := fs st;
          log := log st ++ [(ERROR, "Ошибка: файл " +:+ n +:+ " не найден при удалении.")] |})
  end.
Proof.
  unfold delete_image. rewrite bind_run, os_path_exists_run.
  destruct (classify cfg (fs st) _) as [p| |] eqn:Hc; cbn beta iota.
  - apply classify_TFile in Hc as [Hr [d Hl]].
    by rewrite bind_run, os_remove_run, Hr, Hl.
  - apply classify_TDir in Hc as (p & Hr & Hl).
    by rewrite bind_run, os_remove_run, Hr, Hl.
  - done.
Qed.

(** One turn of the loop of [delete_selected]. *)
Lemma delete_selected_loop_cons (n : string) (rest del nf : list string) (st : state) :
  delete_selected_loop cfg (n :: rest) del nf st =
  match classify cfg (fs st) (os_path_join (UPLOAD_DIR cfg) n) with
  | TFile p =>
      delete_selected_loop cfg rest (del ++ [n]) nf
        {| fs := delete p (fs st);
           log := log st ++ [(INFO, "Файл " +:+ n +:+ " удалён.")] |}
  | TDir => (Raise IsADirectoryError, st)
  | TNone =>
      delete_selected_loop cfg rest del (nf ++ [n])
        {| fs := fs st;
           log := log st ++ [(ERROR, "Ошибка: файл " +:+ n +:+ " не найден при удалении.")] |}
  end.
Proof.
  cbn [delete_selected_loop]. rewrite bind_run, os_path_exists_run.
  destruct (classify cfg (fs st) _) as [p| |] eqn:Hc; cbn beta iota.
  - apply classify_TFile in Hc as [Hr [d Hl]].
    by rewrite bind_run, os_remove_run, Hr, Hl.
  - apply classify_TDir in Hc as (p & Hr & Hl).
    by rewrite bind_run, os_remove_run, Hr, Hl.
  - done.
Qed.



(** A name without separator that designates a regular file designates
    the entry of that name in the storage directory. *)
Lemma classify_bare_TFile (f : filesystem) (storage p : abspath) (n : string) :
  FS.resolve f (cwd cfg) (UPLOAD_DIR cfg) = Return storage →
  bare n →
  classify cfg f (os_path_join (UPLOAD_DIR cfg) n) = TFile p →
  p = storage ++ [n] ∧ entry_name n.
Proof.
  intros Hdir [Hn Hpar] [Hr [d Hl]]%classify_TFile.
  rewrite (resolve_join _ _ storage) in Hr by done. simpl in Hr.
  destruct (FS.lstat f storage) as [[]|] eqn:Hst; try done.
  inversion Hr as [Hp]. unfold FS.step in Hp.
  destruct (String.eqb_spec n "") as [->|H1].
  { subst. congruence. }
  destruct (String.eqb_spec n ".") as [->|H2].
  { subst. congruence. }
  destruct (String.eqb_spec n "..") as [->|H3]; [done|].
  subst. split; [by apply step_entry_name|by repeat split].
Qed.

End Deletion.

(** ** The deletion handlers *)

Section DeletionHandlers.

Variable cfg : settings.


(** For an entry name the joined path designates whatever the storage
    directory holds under that name. *)
Lemma classify_entry (f : filesystem) (storage : abspath) (n : string) :
  FS.resolve f (cwd cfg) (UPLOAD_DIR cfg) = Return storage →
  FS.lstat f storage = Some Dir →
  entry_name n →
  classify cfg f (os_path_join (UPLOAD_DIR cfg) n) =
  match f !! (storage ++ [n]) with
  | Some (File _) => TFile (storage ++ [n])
  | Some Dir => TDir
  | None => TNone
  end.
Proof.
  intros Hdir Hst Hn. unfold classify.
  rewrite (resolve_join_entry _ _ storage) by done.
  by destruct storage.
Qed.

Lemma delete_selected_run (names : list string) (st : state) :
  delete_selected cfg names st =
  match delete_selected_loop cfg names [] [] st with
  | (Return r, st') => (Return {| deleted := r.1; not_found := r.2 |}, st')
  | (Raise e, st') => (Raise e, st')
  end.
Proof.
  unfold delete_selected. rewrite bind_run.
  by destruct (delete_selected_loop cfg names [] [] st) as [[[d nf]|e] st'].
Qed.

(** The loop only ever removes regular files. *)
Lemma delete_selected_loop_shrinks (names del nf : list string) (st : state) :
  fs (delete_selected_loop cfg names del nf st).2 ⊆ fs st ∧
  same_dirs (fs st) (fs (delete_selected_loop cfg names del nf st).2).
Proof.
  revert del nf st. induction names as [|n names IH]; intros del nf st.
  - split; [done|apply same_dirs_refl].
  - rewrite delete_selected_loop_cons.
    destruct (classify cfg (fs st) _) as [p| |] eqn:Hc.
    + apply classify_TFile in Hc as [_ [d Hl]].
      destruct (IH (del ++ [n]) nf
        {| fs := delete p (fs st);
           log := log st ++ [(INFO, "Файл " +:+ n +:+ " удалён.")] |}) as [Hs Hd].
      simpl in Hs, Hd. split.
      * etrans; [exact Hs|apply delete_subseteq].
      * eapply same_dirs_trans; [by eapply same_dirs_delete_file|exact Hd].
    + split; [done|apply same_dirs_refl].
    + apply (IH del (nf ++ [n]) {| fs := fs st; log := _ |}).
Qed.


(** With bare names, the loop touches nothing but the entries of those
    names in the storage directory. *)
Lemma delete_selected_loop_frame (storage : abspath) (names del nf : list string)
    (st : state) (q : abspath) :
  FS.resolve (fs st) (cwd cfg) (UPLOAD_DIR cfg) = Return storage →
  Forall bare names →
  (∀ n, n ∈ names → q ≠ storage ++ [n]) →
  fs (delete_selected_loop cfg names del nf st).2 !! q = fs st !! q.
Proof.
  revert del nf st. induction names as [|n names IH]; intros del nf st Hdir Hb Hq;
    [done|].
  apply Forall_cons in Hb as [Hn Hb].
  rewrite delete_selected_loop_cons.
  destruct (classify cfg (fs st) _) as [p| |] eqn:Hc; [| done |].
  - destruct (classify_bare_TFile cfg _ storage p n Hdir Hn Hc) as [-> _].
    apply classify_TFile in Hc as [_ [d Hl]].
    rewrite IH; simpl.
    + apply lookup_delete_ne. intros E. eapply Hq; [|by symmetry]. left.
    + eapply resolve_same_dirs; [by eapply same_dirs_delete_file|done].
    + done.
    + intros m Hm. apply Hq. by right.
  - rewrite IH; simpl; [done..|]. intros m Hm. apply Hq. by right.
Qed.

Lemma delete_image_frame (storage : abspath) (n : string) (st : state) (q : abspath) :
  FS.resolve (fs st) (cwd cfg) (UPLOAD_DIR cfg) = Return storage →
  bare n →
  q ≠ storage ++ [n] →
  fs (delete_image cfg n st).2 !! q = fs st !! q.
Proof.
  intros Hdir Hn Hq. rewrite delete_image_run.
  destruct (classify cfg (fs st) _) as [p| |] eqn:Hc; [| done | done].
  destruct (classify_bare_TFile cfg _ storage p n Hdir Hn Hc) as [-> _].
  simpl. by apply lookup_delete_ne.
Qed.


End DeletionHandlers.

(** ** Sorting and slicing *)

Lemma sorted_Permutation (l : list string) : sorted l ≡ₚ l.
Proof. apply merge_sort_Permutation. Qed.

Lemma sorted_length (l : list string) : length (sorted l) = length l.
Proof. apply Permutation_length, sorted_Permutation. Qed.

Lemma lex_leb_total (a b : list Z) :
  Unicode.lex_leb a b = true ∨ Unicode.lex_leb b a = true.
Proof.
  revert b. induction a as [|x a IH]; intros [|y b]; simpl; auto.
  destruct (Z.ltb_spec x y); [by left|].
  destruct (Z.ltb_spec y x); [by right|]. apply IH.
Qed.

Lemma lex_leb_trans (a b c : list Z) :
  Unicode.lex_leb a b = true → Unicode.lex_leb b c = true → Unicode.lex_leb a c = true.
Proof.
  revert b c. induction a as [|x a IH]; intros [|y b] [|z c]; simpl; try done.
  destruct (Z.ltb_spec x y), (Z.ltb_spec y z), (Z.ltb_spec x z); try done; try lia;
    destruct (Z.ltb_spec y x), (Z.ltb_spec z y), (Z.ltb_spec z x);
    try done; try lia.
  apply IH.
Qed.

Lemma str_le_total : Total Unicode.str_le.
Proof. intros a b. apply lex_leb_total. Qed.

Lemma str_le_trans : Transitive Unicode.str_le.
Proof. intros a b c. apply lex_leb_trans. Qed.

Lemma sorted_StronglySorted (l : list string) : StronglySorted Unicode.str_le (sorted l).
Proof.
  apply @StronglySorted_merge_sort; first [apply str_le_trans|apply str_le_total].
Qed.

(** With both bounds non-negative the slice is the plain one. *)
Lemma py_slice_nonneg {A} (l : list A) (lo hi : Z) :
  0 <= lo → 0 <= hi →
  py_slice l lo hi = take (Z.to_nat (hi - lo)) (drop (Z.to_nat lo) l).
Proof.
  intros Hlo Hhi. unfold py_slice, slice_index.
  destruct (Z.ltb_spec lo 0); [lia|]. destruct (Z.ltb_spec hi 0); [lia|].
  destruct (Z.le_gt_cases (Z.of_nat (length l)) lo) as [Hge|Hlt].
  - rewrite !drop_ge by lia. by rewrite !take_nil.
  - rewrite (Z.min_l lo) by lia.
    destruct (Z.le_gt_cases hi (Z.of_nat (length l))).
    + by rewrite (Z.min_l hi) by lia.
    + rewrite (Z.min_r hi) by lia.
      rewrite !take_ge; [done|rewrite length_drop; lia..].
Qed.

(** A slice that starts at or after the end is empty. *)
Lemma py_slice_past_end {A} (l : list A) (lo hi : Z) :
  Z.of_nat (length l) <= lo → 0 <= hi → py_slice l lo hi = [].
Proof.
  intros Hlo Hhi. rewrite py_slice_nonneg by lia.
  rewrite drop_ge by lia. apply take_nil.
Qed.

Lemma window_shift {A} (l : list A) (k : nat) (lo hi : Z) :
  0 <= lo →
  (filter (fun ix : nat * A => lo <= Z.of_nat ix.1 < hi)
          (imap (fun i x => ((k + i)%nat, x)) l)).*2 =
  take (Z.to_nat (hi - Z.max lo (Z.of_nat k))) (drop (Z.to_nat (lo - Z.of_nat k)) l).
Proof.
  intros Hlo. revert k. induction l as [|x l IH]; intros k.
  - by rewrite drop_nil, take_nil.
  - rewrite imap_cons.
    rewrite (imap_ext _ (fun i x => ((S k + i)%nat, x))) by (intros; simpl; f_equal; lia).
    rewrite filter_cons. simpl fst. rewrite Nat.add_0_r.
    destruct (decide (lo <= Z.of_nat k < hi)) as [Hin|Hout].
    + rewrite fmap_cons, IH. simpl snd.
      replace (Z.to_nat (lo - Z.of_nat k)) with 0%nat by lia.
      replace (Z.to_nat (lo - Z.of_nat (S k))) with 0%nat by lia.
      rewrite !drop_0.
      replace (Z.to_nat (hi - Z.max lo (Z.of_nat k)))
        with (S (Z.to_nat (hi - Z.max lo (Z.of_nat (S k))))) by lia.
      done.
    + rewrite IH. destruct (Z.lt_ge_cases (Z.of_nat k) lo) as [Hlt|Hge].
      * replace (Z.to_nat (lo - Z.of_nat k))
          with (S (Z.to_nat (lo - Z.of_nat (S k)))) by lia.
        simpl drop. f_equal. lia.
      * replace (Z.to_nat (hi - Z.max lo (Z.of_nat (S k)))) with 0%nat by lia.
        replace (Z.to_nat (hi - Z.max lo (Z.of_nat k))) with 0%nat by lia.
        done.
Qed.

(** For non-negative bounds the slice holds exactly the entries whose
    index lies between the bounds. *)
Lemma py_slice_window {A} (l : list A) (lo hi : Z) :
  0 <= lo → 0 <= hi → py_slice l lo hi = window l lo hi.
Proof.
  intros Hlo Hhi. rewrite py_slice_nonneg by done. unfold window.
  rewrite (imap_ext _ (fun i x => ((0 + i)%nat, x)) l) by done.
  rewrite window_shift by done. f_equal; [lia|]. f_equal. lia.
Qed.

Lemma filter_none {A} (P : A → Prop) `{∀ x, Decision (P x)} (l : list A) :
  (∀ x, ¬ P x) → filter P l = [].
Proof.
  intros HP. induction l as [|x l IH]; [done|].
  rewrite filter_cons. destruct (decide (P x)) as [Hx|_]; [|done].
  by apply HP in Hx.
Qed.

Lemma window_nonpos {A} (l : list A) (lo hi : Z) : hi <= 0 → window l lo hi = [].
Proof.
  intros Hhi. unfold window.
  rewrite filter_none; [done|]. intros [i x]. simpl. lia.
Qed.

Lemma py_slice_to_zero {A} (l : list A) (lo : Z) : py_slice l lo 0 = [].
Proof.
  unfold py_slice, slice_index. change (0 <? 0) with false. cbv iota.
  replace (Z.to_nat _) with 0%nat; [done|].
  destruct (Z.ltb_spec lo 0); lia.
Qed.

(** From page zero on, the page that [images_page] cuts out of a listing
    is the window of the listing contract. *)
Lemma page_slice_window (l : list string) (k : Z) :
  0 <= k →
  py_slice l ((k - 1) * per_page) ((k - 1) * per_page + per_page) = page_window l k.
Proof.
  intros Hk. unfold page_window, per_page.
  destruct (decide (k = 0)) as [->|Hne].
  - simpl. by rewrite py_slice_to_zero, window_nonpos.
  - apply py_slice_window; lia.
Qed.

(** ** The random token *)

Lemma length_string_of_list_ascii (l : list ascii) :
  String.length (string_of_list_ascii l) = length l.
Proof. induction l as [|x l IH]; simpl; [done|]. by rewrite IH. Qed.

Lemma forallb_string_of_list_ascii (P : ascii → bool) (l : list ascii) :
  Str.forallb P (string_of_list_ascii l) = forallb P l.
Proof. induction l as [|x l IH]; simpl; [done|]. by rewrite IH. Qed.

Lemma forallb_app_str (P : ascii → bool) (s t : string) :
  Str.forallb P (s +:+ t) = (Str.forallb P s && Str.forallb P t)%bool.
Proof.
  induction s as [|x s IH]; [done|].
  rewrite app_String. simpl. by rewrite IH, andb_assoc.
Qed.

Lemma length_replicate_str (n : nat) (c : ascii) : String.length (Str.replicate n c) = n.
Proof. induction n as [|n IH]; simpl; [done|]. by rewrite IH. Qed.

Lemma forallb_replicate_str (P : ascii → bool) (n : nat) (c : ascii) :
  P c = true → Str.forallb P (Str.replicate n c) = true.
Proof. intros Hc. induction n as [|n IH]; simpl; [done|]. by rewrite Hc, IH. Qed.

Lemma int_from_bytes_bounds (bs : list byte) :
  0 <= UUID.int_from_bytes bs < 256 ^ Z.of_nat (length bs).
Proof.
  unfold UUID.int_from_bytes.
  assert (∀ acc, 0 <= acc →
    0 <= fold_left (fun acc b => acc * 256 + Z.of_N (Byte.to_N b)) bs acc
      < (acc + 1) * 256 ^ Z.of_nat (length bs)) as H;
    [|specialize (H 0 ltac:(lia)); lia].
  induction bs as [|b bs IH]; intros acc Hacc.
  - simpl. lia.
  - cbn [fold_left length]. pose proof (Byte.to_N_bounded b) as Hb.
    specialize (IH (acc * 256 + Z.of_N (Byte.to_N b)) ltac:(lia)).
    rewrite Nat2Z.inj_succ, Z.pow_succ_r by lia.
    assert (0 < 256 ^ Z.of_nat (length bs)) by (apply Z.pow_pos_nonneg; lia).
    nia.
Qed.

Lemma uuid4_int_bounds (bs : list byte) :
  length bs = 16%nat → 0 <= UUID.uuid4_int bs < 2 ^ 128.
Proof.
  intros Hlen. pose proof (int_from_bytes_bounds bs) as Hb. rewrite Hlen in Hb.
  change (256 ^ Z.of_nat 16) with (2 ^ 128) in Hb.
  unfold UUID.uuid4_int. set (r := UUID.int_from_bytes bs) in *.
  assert (Z.shiftr r 128 = 0) as Hhigh.
  { destruct (decide (r = 0)) as [->|Hne]; [done|].
    apply Z.shiftr_eq_0; [lia|]. apply Z.log2_lt_pow2; lia. }
  set (u := Z.lor _ _).
  assert (0 <= u) as Hnonneg.
  { subst u. apply Z.lor_nonneg. split; [|done].
    apply Z.land_nonneg. left. apply Z.lor_nonneg. split; [|done].
    apply Z.land_nonneg. left. lia. }
  split; [done|].
  destruct (decide (u = 0)) as [->|Hne]; [done|].
  apply Z.log2_lt_pow2; [lia|].
  assert (Z.shiftr u 128 = 0) as Hu.
  { subst u. rewrite !Z.shiftr_lor, !Z.shiftr_land, Z.shiftr_lor, Z.shiftr_land, Hhigh.
    reflexivity. }
  apply Z.shiftr_eq_0_iff in Hu as [?|[_ ?]]; [done|lia].
Qed.

Lemma hex_len_bound (n : Z) : 0 <= n < 2 ^ 128 → (UUID.hex_len n <= 32)%nat.
Proof.
  intros Hn. unfold UUID.hex_len. destruct (Z.eqb_spec n 0); [lia|].
  assert (Z.log2 n < 128) by (apply Z.log2_lt_pow2; lia).
  pose proof (Z.log2_nonneg n).
  assert (Z.log2 n / 4 <= 31) by (apply Z.lt_succ_r, Z.div_lt_upper_bound; lia).
  assert (0 <= Z.log2 n / 4) by (apply Z.div_pos; lia).
  lia.
Qed.

Lemma length_format_x (n : Z) : String.length (UUID.format_x n) = UUID.hex_len n.
Proof.
  unfold UUID.format_x.
  by rewrite length_string_of_list_ascii, length_map, length_rev, length_seq.
Qed.

Lemma hexdigit_is_hexdigit (d : Z) : UUID.is_hexdigit (UUID.hexdigit d) = true.
Proof.
  unfold UUID.hexdigit.
  destruct (Z.to_nat d) as [|[|[|[|[|[|[|[|[|[|[|[|[|[|[|[|k]]]]]]]]]]]]]]]];
    reflexivity.
Qed.

Lemma format_x_hexdigits (n : Z) : Str.forallb UUID.is_hexdigit (UUID.format_x n) = true.
Proof.
  unfold UUID.format_x. rewrite forallb_string_of_list_ascii.
  apply forallb_forall. intros c [i [<- _]]%in_map_iff.
  apply hexdigit_is_hexdigit.
Qed.

(** The token is thirty-two lower-case hexadecimal digits. *)
Lemma uuid4_hex_shape (urandom : list byte) :
  length urandom = 16%nat →
  String.length (UUID.uuid4_hex urandom) = 32%nat ∧
  Str.forallb UUID.is_hexdigit (UUID.uuid4_hex urandom) = true.
Proof.
  intros Hlen. unfold UUID.uuid4_hex, UUID.format_032x.
  pose proof (hex_len_bound _ (uuid4_int_bounds _ Hlen)) as Hk.
  rewrite <- length_format_x in Hk. split.
  - rewrite length_app_str, length_replicate_str. lia.
  - rewrite forallb_app_str, format_x_hexdigits, forallb_replicate_str; done.
Qed.

Lemma forallb_hexdigit_no_sep (s : string) :
  Str.forallb UUID.is_hexdigit s = true → no_sep s.
Proof.
  unfold no_sep. induction s as [|x s IH]; simpl; [done|].
  intros [Hx Hs]%andb_prop. rewrite (IH Hs).
  destruct (Ascii.eqb_spec x Str.sep) as [->|]; [|done]. by vm_compute in Hx.
Qed.

(** ** [os.path.splitext] *)

Lemma len_app (s t : string) : Str.len (s +:+ t) = Str.len s + Str.len t.
Proof. unfold Str.len. rewrite length_app_str. lia. Qed.

Lemma take_app_length (s t : string) : Str.take (String.length s) (s +:+ t) = s.
Proof. induction s as [|x s IH]; [by destruct t|]. rewrite app_String. simpl. by rewrite IH. Qed.

Lemma drop_app_length (s t : string) : Str.drop (String.length s) (s +:+ t) = t.
Proof. induction s as [|x s IH]; [done|]. by rewrite app_String. Qed.

(** The last occurrence of a character that occurs. *)
Lemma last_occurrence (c : ascii) (s : string) :
  Str.contains c s = true →
  ∃ a b, s = a +:+ String c b ∧ Str.contains c b = false.
Proof.
  induction s as [|x s IH]; [done|]. simpl.
  destruct (Str.contains c s) eqn:Hs.
  - intros _. destruct (IH eq_refl) as (a & b & -> & Hb).
    by exists (String x a), b.
  - destruct (Ascii.eqb_spec x c) as [->|]; [|done]. intros _. by exists "", s.
Qed.

Lemma rfind_from_app (c : ascii) (s t : string) (i last : Z) :
  Str.rfind_from c (s +:+ t) i last =
  Str.rfind_from c t (i + Str.len s) (Str.rfind_from c s i last).
Proof.
  revert i last. induction s as [|x s IH]; intros i last.
  - rewrite app_empty_l. simpl. f_equal. unfold Str.len. simpl. lia.
  - rewrite app_String. simpl. rewrite IH. f_equal.
    unfold Str.len. simpl String.length. lia.
Qed.

Lemma rfind_from_absent (c : ascii) (s : string) (i last : Z) :
  Str.contains c s = false → Str.rfind_from c s i last = last.
Proof.
  revert i last. induction s as [|x s IH]; intros i last; simpl; [done|].
  destruct (Ascii.eqb x c); [done|]. apply IH.
Qed.

Lemma rfind_from_range (c : ascii) (s : string) (i last : Z) :
  Str.rfind_from c s i last = last ∨
  i <= Str.rfind_from c s i last < i + Str.len s.
Proof.
  revert i last. induction s as [|x s IH]; intros i last; simpl; [by left|].
  assert (Str.len (String x s) = 1 + Str.len s) as ->
    by (unfold Str.len; simpl String.length; lia).
  destruct (IH (i + 1) (if Ascii.eqb x c then i else last)) as [->|H].
  - destruct (Ascii.eqb x c); [right|left]; [|done].
    unfold Str.len. lia.
  - right. lia.
Qed.

Lemma rfind_last (c : ascii) (q b : string) :
  Str.contains c b = false → Str.rfind c (q +:+ String c b) = Str.len q.
Proof.
  intros Hb. unfold Str.rfind. rewrite rfind_from_app. simpl.
  rewrite Ascii.eqb_refl. rewrite rfind_from_absent by done. lia.
Qed.

Lemma rfind_before (c : ascii) (pre v : string) :
  Str.contains c v = false → Str.rfind c (pre +:+ v) <= Str.len pre - 1.
Proof.
  intros Hv. unfold Str.rfind. rewrite rfind_from_app, rfind_from_absent by done.
  destruct (rfind_from_range c pre 0 (-1)) as [->|H]; [|lia].
  unfold Str.len. lia.
Qed.

(** A path is a directory prefix followed by its last component. *)
Lemma split_basename (p : string) :
  ∃ pre, p = pre +:+ basename p ∧
         Str.rfind Str.sep p = Str.len pre - 1 ∧
         no_sep (basename p).
Proof.
  unfold basename, no_sep. destruct (Str.contains Str.sep p) eqn:Hp.
  - destruct (last_occurrence _ _ Hp) as (a & b & -> & Hb).
    exists (a +:+ String Str.sep "").
    rewrite split_app_sep, (split_no_sep _ b Hb), last_last.
    rewrite app_assoc_str, app_String, app_empty_l. split; [done|]. split; [|done].
    rewrite rfind_last, len_app by done. unfold Str.len at 3. simpl. lia.
  - exists "". rewrite (split_no_sep _ p Hp). simpl. split; [done|]. split; [|done].
    unfold Str.rfind. by rewrite rfind_from_absent.
Qed.

Lemma last_dot_suffix_absent (s : string) :
  Str.contains Str.extsep s = false → last_dot_suffix s = "".
Proof.
  induction s as [|x s IH]; simpl; [done|].
  destruct (Ascii.eqb x Str.extsep); [done|]. intros Hs. by rewrite Hs.
Qed.

Lemma last_dot_suffix_app (s b : string) :
  Str.contains Str.extsep b = false →
  last_dot_suffix (s +:+ String Str.extsep b) = String Str.extsep b.
Proof.
  intros Hb. induction s as [|x s IH].
  - rewrite app_empty_l. simpl. by rewrite Hb.
  - rewrite app_String. cbn [last_dot_suffix].
    rewrite contains_app. cbn [Str.contains]. rewrite Ascii.eqb_refl.
    by rewrite orb_true_r.
Qed.

Lemma lstrip_dots_absent (s : string) :
  Str.contains Str.extsep s = false → lstrip_dots s = s.
Proof. destruct s as [|x s]; simpl; [done|]. by destruct (Ascii.eqb x Str.extsep). Qed.

Lemma lstrip_dots_all (a t : string) :
  Str.forallb is_dot a = true → lstrip_dots (a +:+ t) = lstrip_dots t.
Proof.
  induction a as [|x a IH]; [done|]. rewrite app_String. simpl. unfold is_dot at 1.
  intros [-> Ha]%andb_prop. by apply IH.
Qed.

Lemma lstrip_dots_some (a t : string) :
  Str.forallb is_dot a = false → lstrip_dots (a +:+ t) = lstrip_dots a +:+ t.
Proof.
  induction a as [|x a IH]; [done|]. rewrite app_String. simpl. unfold is_dot at 1.
  destruct (Ascii.eqb x Str.extsep); [apply IH|done].
Qed.

Lemma lstrip_dots_some_dot (a b : string) :
  Str.forallb is_dot a = false →
  Str.contains Str.extsep b = false →
  last_dot_suffix (lstrip_dots (a +:+ String Str.extsep b)) = String Str.extsep b.
Proof.
  intros Ha Hb. rewrite lstrip_dots_some by done. by apply last_dot_suffix_app.
Qed.

Lemma at_index_app (pre t : string) (x : ascii) :
  Str.at_index (pre +:+ String x t) (Str.len pre) = String x "".
Proof.
  unfold Str.at_index, Str.len. rewrite Nat2Z.id, drop_app_length. done.
Qed.

(** The loop looks for a character other than a dot in front of the last
    dot of the final component. *)
Lemma splitext_loop_spec (a pre rest : string) (dotIndex : Z) :
  splitext_loop (pre +:+ a +:+ rest) dotIndex (String.length a) (Str.len pre) =
  if Str.forallb is_dot a then None
  else Some (Str.take (Z.to_nat dotIndex) (pre +:+ a +:+ rest),
             Str.drop (Z.to_nat dotIndex) (pre +:+ a +:+ rest)).
Proof.
  revert pre. induction a as [|x a IH]; intros pre; [done|].
  cbn [String.length splitext_loop Str.forallb].
  rewrite app_String, at_index_app. unfold is_dot at 1.
  change (String.eqb (String x "") ".") with (Ascii.eqb x Str.extsep && true)%bool.
  rewrite andb_true_r.
  destruct (Ascii.eqb x Str.extsep); [|done]. cbn [negb andb].
  specialize (IH (pre +:+ String x "")).
  rewrite len_app in IH. change (Str.len (String x "")) with 1 in IH.
  by rewrite !app_assoc_str, !app_String, !app_empty_l in IH.
Qed.

(** [os.path.splitext] cuts off the extension of the final component. *)
Lemma splitext_extension (p : string) : (os_path_splitext p).2 = extension p.
Proof.
  unfold os_path_splitext, extension.
  destruct (split_basename p) as (pre & Hp & Hsep & Hv).
  revert Hp Hsep Hv. generalize (basename p). intros v Hp Hsep Hv.
  rewrite Hsep. clear Hsep. subst p.
  destruct (Str.contains Str.extsep v) eqn:Hdot.
  - destruct (last_occurrence _ _ Hdot) as (a & b & -> & Hb).
    assert (Str.rfind Str.extsep (pre +:+ a +:+ String Str.extsep b)
            = Str.len pre + Str.len a) as ->.
    { rewrite <- app_assoc_str, rfind_last, len_app; done. }
    destruct (Z.ltb_spec (Str.len pre - 1) (Str.len pre + Str.len a)) as [_|Hlt];
      [|unfold Str.len in Hlt; lia].
    replace (Z.to_nat (Str.len pre + Str.len a - (Str.len pre - 1 + 1)))
      with (String.length a) by (unfold Str.len; lia).
    replace (Str.len pre - 1 + 1) with (Str.len pre) by lia.
    rewrite splitext_loop_spec.
    destruct (Str.forallb is_dot a) eqn:Ha.
    + simpl. rewrite lstrip_dots_all by done. simpl.
      rewrite lstrip_dots_absent by done. by rewrite last_dot_suffix_absent.
    + simpl. rewrite lstrip_dots_some_dot by done.
      rewrite <- app_assoc_str.
      replace (Z.to_nat (Str.len pre + Str.len a)) with (String.length (pre +:+ a))
        by (rewrite length_app_str; unfold Str.len; lia).
      apply drop_app_length.
  - pose proof (rfind_before Str.extsep pre v Hdot) as Hle.
    destruct (Z.ltb_spec (Str.len pre - 1) (Str.rfind Str.extsep (pre +:+ v))); [lia|].
    simpl. rewrite lstrip_dots_absent by done. by rewrite last_dot_suffix_absent.
Qed.

Lemma last_dot_suffix_no_sep (s : string) : no_sep s → no_sep (last_dot_suffix s).
Proof.
  unfold no_sep. induction s as [|x s IH]; simpl; [done|].
  destruct (Ascii.eqb x Str.sep) eqn:Hx; [done|]. intros Hs.
  destruct (Str.contains Str.extsep s); [by apply IH|].
  destruct (Ascii.eqb x Str.extsep); [|done]. simpl. by rewrite Hx.
Qed.

Lemma lstrip_dots_no_sep (s : string) : no_sep s → no_sep (lstrip_dots s).
Proof.
  unfold no_sep. induction s as [|x s IH]; simpl; [done|].
  destruct (Ascii.eqb x Str.sep) eqn:Hx; [done|]. intros Hs.
  destruct (Ascii.eqb x Str.extsep); [by apply IH|]. simpl. by rewrite Hx.
Qed.

(** The extension never holds a path separator. *)
Lemma extension_no_sep (p : string) : no_sep (extension p).
Proof.
  destruct (split_basename p) as (pre & _ & _ & Hv).
  by apply last_dot_suffix_no_sep, lstrip_dots_no_sep.
Qed.

(** ** The upload handler *)

Section Upload.

Variable cfg : settings.

Lemma walk_limited_Return (f : filesystem) (cur p : list string) (comps : list string) :
  FS.walk_limited f cur comps = Return p → FS.walk f cur comps = Return p.
Proof.
  revert cur. induction comps as [|c comps IH]; intros cur; simpl; [done|].
  destruct (FS.lstat f cur) as [[]|]; try done.
  destruct (FS.NAME_MAX <? Str.len c); [done|]. apply IH.
Qed.

Lemma walk_limited_within (f : filesystem) (cur : list string) (comps : list string) :
  forallb (fun c => Str.len c <=? FS.NAME_MAX) comps = true →
  FS.walk_limited f cur comps = FS.walk f cur comps.
Proof.
  revert cur. induction comps as [|c comps IH]; intros cur; simpl; [done|].
  intros [Hc Hcomps]%andb_prop. apply Z.leb_le in Hc.
  destruct (FS.lstat f cur) as [[]|]; try done.
  rewrite (proj2 (Z.ltb_ge _ _)) by done. by apply IH.
Qed.

Lemma walk_limited_raise (f : filesystem) (cur : list string) (comps : list string) (e : exn) :
  FS.walk_limited f cur comps = Raise e → ∀ s d, e ≠ HTTPException s d.
Proof.
  revert cur. induction comps as [|c comps IH]; intros cur; simpl; [done|].
  destruct (FS.lstat f cur) as [[]|]; [by intros [= <-]| |by intros [= <-]].
  destruct (FS.NAME_MAX <? Str.len c); [by intros [= <-]|]. apply IH.
Qed.

Lemma resolve_limited_Return (f : filesystem) (cwd p : list string) (path : string) :
  FS.resolve_limited f cwd path = Return p → FS.resolve f cwd path = Return p.
Proof.
  unfold FS.resolve_limited, FS.resolve. destruct (String.eqb path ""); [done|].
  destruct (FS.PATH_MAX <=? Str.len path); [done|]. apply walk_limited_Return.
Qed.

Lemma resolve_limited_within (f : filesystem) (cwd : list string) (path : string) :
  within_limits path = true →
  FS.resolve_limited f cwd path = FS.resolve f cwd path.
Proof.
  unfold within_limits, FS.resolve_limited, FS.resolve.
  intros [[_ Hlen]%andb_prop Hcomps]%andb_prop. apply Z.ltb_lt in Hlen.
  destruct (String.eqb path ""); [done|].
  rewrite (proj2 (Z.leb_gt _ _)) by done. by apply walk_limited_within.
Qed.

Lemma resolve_limited_raise (f : filesystem) (cwd : list string) (path : string) (e : exn) :
  FS.resolve_limited f cwd path = Raise e → ∀ s d, e ≠ HTTPException s d.
Proof.
  unfold FS.resolve_limited. destruct (String.eqb path ""); [by intros [= <-]|].
  destruct (FS.PATH_MAX <=? Str.len path); [by intros [= <-]|]. apply walk_limited_raise.
Qed.

Lemma write_file_run (path : string) (data : list byte) (st : state) :
  write_file cfg path data st =
  if Str.contains Ascii.zero path then (Raise ValueError, st)
  else
    match FS.resolve_limited (fs st) (cwd cfg) path with
    | Return p =>
        match FS.lstat (fs st) p with
        | Some Dir => (Raise IsADirectoryError, st)
        | _ =>
            match FS.lstat (fs st) (removelast p) with
            | Some Dir => (Return tt, {| fs := <[p := File data]> (fs st); log := log st |})
            | Some (File _) => (Raise NotADirectoryError, st)
            | None => (Raise FileNotFoundError, st)
            end
        end
    | Raise e => (Raise e, st)
    end.
Proof.
  unfold write_file. destruct (Str.contains Ascii.zero path); [done|].
  rewrite bind_run. cbn [get_fs]. rewrite bind_run. unfold lift.
  destruct (FS.resolve_limited (fs st) (cwd cfg) path) as [p|e]; [|done].
  destruct (FS.lstat (fs st) p) as [[]|];
    by destruct (FS.lstat (fs st) (removelast p)) as [[]|].
Qed.

(** Within the limits of [open] the lookup is the plain one. *)
Lemma write_file_within (path : string) (data : list byte) (st : state) :
  within_limits path = true →
  write_file cfg path data st =
  match FS.resolve (fs st) (cwd cfg) path with
  | Return p =>
      match FS.lstat (fs st) p with
      | Some Dir => (Raise IsADirectoryError, st)
      | _ =>
          match FS.lstat (fs st) (removelast p) with
          | Some Dir => (Return tt, {| fs := <[p := File data]> (fs st); log := log st |})
          | Some (File _) => (Raise NotADirectoryError, st)
          | None => (Raise FileNotFoundError, st)
          end
      end
  | Raise e => (Raise e, st)
  end.
Proof.
  intros Hlim. rewrite write_file_run, (resolve_limited_within _ _ _ Hlim).
  unfold within_limits in Hlim.
  apply andb_prop in Hlim as [[Hnul _]%andb_prop _].
  by destruct (Str.contains Ascii.zero path).
Qed.

(** Writing never ends in an [HTTPException], and a failed write
    leaves the state as it was. *)
Lemma write_file_raise (path : string) (data : list byte) (st st' : state) (e : exn) :
  write_file cfg path data st = (Raise e, st') →
  st' = st ∧ ∀ s d, e ≠ HTTPException s d.
Proof.
  rewrite write_file_run.
  destruct (Str.contains Ascii.zero path); [by intros [= <- <-]|].
  destruct (FS.resolve_limited _ _ _) as [p|e'] eqn:Hw.
  - destruct (FS.lstat (fs st) p) as [[]|];
      destruct (FS.lstat (fs st) (removelast p)) as [[]|];
      intros [= <- <-]; done.
  - intros [= <- <-]. split; [done|]. by eapply resolve_limited_raise.
Qed.

(** A write that returns created or replaced the file that the path
    designates, in an existing directory. *)
Lemma write_file_Return (path : string) (data : list byte) (st st' : state) (u : unit) :
  write_file cfg path data st = (Return u, st') →
  ∃ p,
    FS.resolve (fs st) (cwd cfg) path = Return p ∧
    FS.lstat (fs st) p ≠ Some Dir ∧
    FS.lstat (fs st) (removelast p) = Some Dir ∧
    st' = {| fs := <[p := File data]> (fs st); log := log st |}.
Proof.
  rewrite write_file_run.
  destruct (Str.contains Ascii.zero path); [done|].
  destruct (FS.resolve_limited _ _ _) as [p|e'] eqn:Hw; [|done].
  apply resolve_limited_Return in Hw. intros Heq. exists p. revert Heq.
  destruct (FS.lstat (fs st) p) as [[]|] eqn:Hp;
    destruct (FS.lstat (fs st) (removelast p)) as [[]|] eqn:Hparent;
    intros Heq; by simplify_eq.
Qed.


(** The three ways through [upload_file]. *)
Lemma upload_file_run (f : UploadFile) (urandom : list byte) (st : state) :
  upload_file cfg f urandom st =
  if negb (content_type_allowed (content_type f)) then
    (Raise (HTTPException 400 "Неподдерживаемый тип файла"),
     {| fs := fs st;
        log := log st ++
          [(ERROR, "Ошибка: неподдерживаемый формат файла (" +:+ filename f +:+ ")")] |})
  else if Z.of_nat (length (file f)) >? MAX_FILE_SIZE_MB cfg * 1024 * 1024 then
    (Raise (HTTPException 400 "Файл превышает допустимый размер"),
     {| fs := fs st;
        log := log st ++ [(ERROR, "Ошибка: файл " +:+ filename f +:+ " превышает размер")] |})
  else
    let unique_name := UUID.uuid4_hex urandom +:+ extension (filename f) in
    match write_file cfg (os_path_join (UPLOAD_DIR cfg) unique_name) (file f) st with
    | (Return _, st') =>
        (Return {| url := "/images/" +:+ unique_name |},
         {| fs := fs st';
            log := log st' ++
              [(INFO, "Успех: изображение " +:+ unique_name +:+ " загружено.")] |})
    | (Raise e, st') => (Raise e, st')
    end.
Proof.
  unfold upload_file. rewrite splitext_extension.
  destruct (negb _); [done|]. destruct (_ >? _); [done|].
  cbv zeta. rewrite bind_run.
  by destruct (write_file cfg _ (file f) st) as [[[]|e] st'].
Qed.

(** The stored name is a proper entry name. *)
Lemma unique_name_entry_name (urandom : list byte) (name : string) :
  length urandom = 16%nat →
  entry_name (UUID.uuid4_hex urandom +:+ extension name).
Proof.
  intros Hlen. destruct (uuid4_hex_shape urandom Hlen) as [Hl Hhex].
  pose proof (forallb_hexdigit_no_sep _ Hhex) as Hns.
  destruct (UUID.uuid4_hex urandom) as [|c tok]; [done|].
  simpl in Hhex. apply andb_prop in Hhex as [Hc _]. rewrite app_String.
  split; [|repeat split].
  - unfold no_sep in *. rewrite <- app_String, contains_app, Hns.
    apply extension_no_sep.
  - done.
  - intros [= -> _]. by vm_compute in Hc.
  - intros [= -> _]. by vm_compute in Hc.
Qed.

End Upload.

(** * The deletion claims *)

(** C10: with the storage directory in place, a deletion call whose names
    are all bare (no separator, not the parent segment) leaves every
    entry of the storage directory whose name is not among them as it
    was: present or absent, and with the same bytes.  This holds for the
    bulk handler and for the single one, also when the call ends in an
    exception. *)
Theorem delete_keeps_other_files (cfg : settings) (st : state) (storage : list string) :
  FS.resolve (fs st) (cwd cfg) (UPLOAD_DIR cfg) = Return storage →
  (∀ names n, Forall bare names → n ∉ names →
     fs (delete_selected cfg names st).2 !! (storage ++ [n]) = fs st !! (storage ++ [n])) ∧
  (∀ m n, bare m → n ≠ m →
     fs (delete_image cfg m st).2 !! (storage ++ [n]) = fs st !! (storage ++ [n])).
Proof.
  intros Hdir. split.
  - intros names n Hb Hn. rewrite delete_selected_run.
    pose proof (delete_selected_loop_frame cfg storage names [] [] st
                  (storage ++ [n]) Hdir Hb) as Hframe.
    destruct (delete_selected_loop cfg names [] [] st) as [[r|e] st'];
      simpl in *; apply Hframe; intros m Hm Heq%app_inv_head; by simplify_eq.
  - intros m n Hm Hne. apply (delete_image_frame cfg storage); [done..|].
    intros Heq%app_inv_head. by simplify_eq.
Qed.

Lemma delete_keeps_other_files_witness :
  fs (delete_selected default_settings ["a.png"; "zz.png"] st_small).2
    !! (["app"; "images"] ++ ["b.png"])
  = fs st_small !! (["app"; "images"] ++ ["b.png"]) ∧
  fs (delete_image default_settings "b.png" st_small).2
    !! (["app"; "images"] ++ ["a.png"])
  = fs st_small !! (["app"; "images"] ++ ["a.png"]).
Proof.
  pose proof (delete_keeps_other_files default_settings st_small ["app"; "images"]
                eq_refl) as [Hbulk Hsingle].
  split.
  - apply Hbulk.
    + repeat constructor; discriminate.
    + intros H. repeat (apply elem_of_cons in H as [H|H]; [discriminate|]).
      by apply elem_of_nil in H.
  - apply Hsingle; [|discriminate]. split; [reflexivity|discriminate].
Defined.










(** * The listing claims *)

Section Listing.

Variable cfg : settings.

Lemma os_listdir_state (path : string) (st : state) :
  (os_listdir cfg path st).2 = st.
Proof.
  unfold os_listdir. rewrite bind_run. cbn [get_fs]. rewrite bind_run. unfold lift.
  destruct (FS.resolve (fs st) (cwd cfg) path) as [p|e]; [|done].
  by destruct (FS.lstat (fs st) p) as [[]|].
Qed.

Lemma images_page_run (k : Z) (st : state) (entries : list string) :
  (os_listdir cfg (UPLOAD_DIR cfg) st).1 = Return entries →
  images_page cfg k st =
  (Return {| images :=
               map (fun f => {| img_name := f; img_url := "/images/" +:+ f |})
                   (py_slice (sorted entries) ((k - 1) * per_page)
                             ((k - 1) * per_page + per_page));
             page := k;
             has_next := (k - 1) * per_page + per_page <? Z.of_nat (length (sorted entries)) |},
   st).
Proof.
  intros Hls. unfold images_page. rewrite bind_run.
  pose proof (os_listdir_state (UPLOAD_DIR cfg) st) as Hst.
  destruct (os_listdir cfg (UPLOAD_DIR cfg) st) as [o st']. simpl in *. by subst.
Qed.

(** From page zero on the handler shows the window of the contract. *)
Lemma images_page_window (st : state) (k : Z) :
  0 <= k → listing_shows_page_window cfg st k.
Proof.
  intros Hk entries Hls. eexists. rewrite (images_page_run k st entries Hls).
  split; [done|]. cbn [images]. rewrite map_map. cbn [img_name].
  rewrite map_id. by apply page_slice_window.
Qed.

End Listing.

(** C3 does not hold on the code for negative page numbers: with 51
    stored files, page [-1] is sliced as [files[-100:-50]], which Python
    reads from the end of the list, so the handler shows the first file
    instead of nothing (and announces a next page).  From page zero on the
    code does what the claim says ([images_page_window]). *)
Theorem images_page_negative_page :
  (images_page default_settings (-1) (st_gallery 51)).1 =
    Return {| images := [{| img_name := "f00.png"; img_url := "/images/f00.png" |}];
              page := -1;
              has_next := true |} ∧
  ¬ listing_shows_page_window default_settings (st_gallery 51) (-1).
Proof.
  assert ((images_page default_settings (-1) (st_gallery 51)).1 =
    Return {| images := [{| img_name := "f00.png"; img_url := "/images/f00.png" |}];
              page := -1;
              has_next := true |}) as Hrun by (by vm_compute).
  split; [done|]. intros H.
  destruct ((os_listdir default_settings (UPLOAD_DIR default_settings) (st_gallery 51)).1)
    as [entries|e] eqn:Hls; [|by vm_compute in Hls].
  destruct (H entries Hls) as (ctx & Hctx & Hwin).
  rewrite Hrun in Hctx. injection Hctx as <-.
  unfold page_window in Hwin. by rewrite window_nonpos in Hwin.
Qed.

(** C8: over the listing of the storage directory, [has_next] is true
    exactly when [(page-1)*50+50] is less than the number of entries, and
    a page beyond the last populated one shows no image and has no next
    page. *)
Theorem images_page_has_next (cfg : settings) (st : state) (k : Z) (entries : list string) :
  (os_listdir cfg (UPLOAD_DIR cfg) st).1 = Return entries →
  ∃ ctx,
    (images_page cfg k st).1 = Return ctx ∧
    (has_next ctx = true ↔ (k - 1) * 50 + 50 < Z.of_nat (length entries)) ∧
    (last_populated_page (Z.of_nat (length entries)) < k →
       images ctx = [] ∧ has_next ctx = false).
Proof.
  intros Hls. eexists. rewrite (images_page_run cfg k st entries Hls).
  split; [done|]. cbn [has_next images]. rewrite sorted_length. unfold per_page. split.
  - apply Z.ltb_lt.
  - unfold last_populated_page. intros Hk.
    assert (Z.of_nat (length entries) <= (k - 1) * 50) as Hpast.
    { revert Hk. generalize (Z.of_nat (length entries)). intros N HN.
      Z.div_mod_to_equations. lia. }
    split.
    + rewrite py_slice_past_end; [done| |lia]. by rewrite sorted_length.
    + apply Z.ltb_ge. lia.
Qed.

Lemma images_page_has_next_witness :
  ∃ ctx,
    (images_page default_settings 3 (st_gallery 51)).1 = Return ctx ∧
    images ctx = [] ∧ has_next ctx = false.
Proof.
  assert (∃ entries,
    (os_listdir default_settings (UPLOAD_DIR default_settings) (st_gallery 51)).1
      = Return entries ∧ length entries = 51%nat) as (entries & Hls & Hlen).
  { eexists. split; vm_compute; reflexivity. }
  destruct (images_page_has_next default_settings (st_gallery 51) 3 entries Hls)
    as (ctx & Hctx & _ & Hpast).
  exists ctx. split; [exact Hctx|]. apply Hpast. rewrite Hlen. reflexivity.
Defined.

(** * The upload claims *)

Lemma content_type_allowed_iff (t : option string) :
  content_type_allowed t = true ↔
  t = Some "image/jpeg" ∨ t = Some "image/png" ∨ t = Some "image/gif".
Proof.
  destruct t as [s|]; simpl.
  - rewrite bool_decide_eq_true. unfold allowed_types.
    rewrite !elem_of_cons, elem_of_nil. split.
    + intros [->|[->|[->|[]]]]; auto.
    + intros [[= ->]|[[= ->]|[= ->]]]; auto.
  - split; [done|]. intros [?|[?|?]]; done.
Qed.

(** C5: an upload whose declared media type is none of [image/jpeg],
    [image/png], [image/gif] (or is missing) is answered with status 400
    and the unsupported-type message, and the file system is untouched;
    an upload with one of the three types is never answered with that
    error. *)
Theorem upload_rejects_unsupported_type
    (cfg : settings) (f : UploadFile) (urandom : list byte) (st : state) :
  (content_type f ≠ Some "image/jpeg" →
   content_type f ≠ Some "image/png" →
   content_type f ≠ Some "image/gif" →
   ∃ st', upload_file cfg f urandom st =
            (Raise (HTTPException 400 "Неподдерживаемый тип файла"), st') ∧
          fs st' = fs st) ∧
  (content_type f = Some "image/jpeg" ∨
   content_type f = Some "image/png" ∨
   content_type f = Some "image/gif" →
   (upload_file cfg f urandom st).1 ≠
     Raise (HTTPException 400 "Неподдерживаемый тип файла")).
Proof.
  rewrite upload_file_run. split.
  - intros H1 H2 H3.
    assert (content_type_allowed (content_type f) = false) as ->.
    { apply not_true_is_false. rewrite content_type_allowed_iff. tauto. }
    eexists. split; [reflexivity|done].
  - intros Hok%content_type_allowed_iff. rewrite Hok. cbn [negb].
    destruct (_ >? _); [by intros [=]|]. cbv zeta.
    destruct (write_file cfg _ (file f) st) as [[[]|e] st'] eqn:Hw; [done|].
    apply write_file_raise in Hw as [_ Hne]. simpl. intros [= ->]. by eapply Hne.
Qed.

Lemma upload_rejects_unsupported_type_witness :
  (∃ st', upload_file default_settings oversize_text urandom_example st_small =
            (Raise (HTTPException 400 "Неподдерживаемый тип файла"), st') ∧
          fs st' = fs st_small) ∧
  (upload_file default_settings cat_gif urandom_example st_small).1 ≠
    Raise (HTTPException 400 "Неподдерживаемый тип файла").
Proof.
  split.
  - apply (proj1 (upload_rejects_unsupported_type default_settings oversize_text
                    urandom_example st_small)); discriminate.
  - apply (proj2 (upload_rejects_unsupported_type default_settings cat_gif
                    urandom_example st_small)).
    right. right. reflexivity.
Defined.

Lemma length_oversize_text :
  Z.of_nat (length (file oversize_text)) = 5 * 1024 * 1024 + 1.
Proof. unfold oversize_text. cbn [file]. rewrite length_replicate. lia. Qed.

(** The claim C6 as worded fails: the media type is checked first, so
    an oversize upload of a type that is not allowed is answered with the
    unsupported-type error, not the size error. *)
Lemma upload_oversize_wrong_type :
  MAX_FILE_SIZE_MB default_settings * 1024 * 1024 < Z.of_nat (length (file oversize_text)) ∧
  (upload_file default_settings oversize_text urandom_example st_small).1
    = Raise (HTTPException 400 "Неподдерживаемый тип файла") ∧
  ¬ oversize_answer_is_size_error default_settings oversize_text urandom_example st_small.
Proof.
  assert ((upload_file default_settings oversize_text urandom_example st_small).1
    = Raise (HTTPException 400 "Неподдерживаемый тип файла")) as Hrun.
  { by rewrite upload_file_run. }
  split; [rewrite length_oversize_text; by vm_compute|]. split; [done|].
  unfold oversize_answer_is_size_error. rewrite Hrun. by intros [=].
Qed.

(** C6, amended: an upload longer than [MAX_FILE_SIZE_MB] mebibytes is
    answered with status 400 and nothing is written; the message is the
    size error when the declared media type is an allowed one, and the
    unsupported-type error otherwise. *)
Theorem upload_rejects_oversize
    (cfg : settings) (f : UploadFile) (urandom : list byte) (st : state) :
  MAX_FILE_SIZE_MB cfg * 1024 * 1024 < Z.of_nat (length (file f)) →
  ∃ detail st',
    upload_file cfg f urandom st = (Raise (HTTPException 400 detail), st') ∧
    fs st' = fs st ∧
    (content_type_allowed (content_type f) = true →
       detail = "Файл превышает допустимый размер") ∧
    (content_type_allowed (content_type f) = false →
       detail = "Неподдерживаемый тип файла").
Proof.
  intros Hbig. rewrite upload_file_run.
  destruct (content_type_allowed (content_type f)); cbn [negb].
  - rewrite (proj2 (Z.gtb_gt _ _)) by lia. eexists _, _. by repeat split.
  - eexists _, _. by repeat split.
Qed.

Lemma upload_rejects_oversize_witness :
  ∃ detail st',
    upload_file default_settings oversize_text urandom_example st_small
      = (Raise (HTTPException 400 detail), st') ∧
    fs st' = fs st_small ∧
    (content_type_allowed (content_type oversize_text) = true →
       detail = "Файл превышает допустимый размер") ∧
    (content_type_allowed (content_type oversize_text) = false →
       detail = "Неподдерживаемый тип файла").
Proof.
  apply (upload_rejects_oversize default_settings oversize_text urandom_example st_small).
  rewrite length_oversize_text. reflexivity.
Defined.

(** C9: for an allowed media type the size error is raised exactly when
    the byte length is strictly greater than [MAX_FILE_SIZE_MB * 1024 *
    1024]; at exactly that length the upload passes both checks and no
    [HTTPException] is raised. *)
Theorem upload_size_limit_inclusive
    (cfg : settings) (f : UploadFile) (urandom : list byte) (st : state) :
  content_type_allowed (content_type f) = true →
  ((upload_file cfg f urandom st).1 = Raise (HTTPException 400 "Файл превышает допустимый размер")
   ↔ MAX_FILE_SIZE_MB cfg * 1024 * 1024 < Z.of_nat (length (file f))) ∧
  (Z.of_nat (length (file f)) = MAX_FILE_SIZE_MB cfg * 1024 * 1024 →
   accepted cfg f ∧
   ∀ status detail, (upload_file cfg f urandom st).1 ≠ Raise (HTTPException status detail)).
Proof.
  intros Hok. rewrite upload_file_run, Hok. cbn [negb].
  assert (∀ status detail,
    (let unique_name := UUID.uuid4_hex urandom +:+ extension (filename f) in
     match write_file cfg (os_path_join (UPLOAD_DIR cfg) unique_name) (file f) st with
     | (Return _, st') =>
         (Return {| url := "/images/" +:+ unique_name |},
          {| fs := fs st';
             log := log st' ++
               [(INFO, "Успех: изображение " +:+ unique_name +:+ " загружено.")] |})
     | (Raise e, st') => (Raise e, st')
     end).1 ≠ Raise (HTTPException status detail)) as Hwrite.
  { intros status detail. cbv zeta.
    destruct (write_file cfg _ (file f) st) as [[[]|e] st'] eqn:Hw; [done|].
    apply write_file_raise in Hw as [_ Hne]. simpl. intros [= ->]. by eapply Hne. }
  split.
  - destruct (Z.gtb_spec (Z.of_nat (length (file f))) (MAX_FILE_SIZE_MB cfg * 1024 * 1024)).
    + split; [lia|done].
    + split; [|lia]. intros Hraise. by apply Hwrite in Hraise.
  - intros Heq. split; [split; [done|lia]|].
    rewrite Z.gtb_ltb, (proj2 (Z.ltb_ge _ _)) by lia. apply Hwrite.
Qed.

Lemma upload_size_limit_inclusive_witness :
  accepted default_settings full_size_png ∧
  ∀ status detail,
    (upload_file default_settings full_size_png urandom_example st_small).1
      ≠ Raise (HTTPException status detail).
Proof.
  apply (proj2 (upload_size_limit_inclusive default_settings full_size_png
                  urandom_example st_small eq_refl)).
  unfold full_size_png. cbn [file]. rewrite length_replicate.
  change (MAX_FILE_SIZE_MB default_settings) with 5. lia.
Defined.




(** * Further properties of the upload handler *)

Lemma unique_name_entry (f : UploadFile) (urandom : list byte) :
  length urandom = 16%nat → entry_name (unique_name f urandom).
Proof.
  intros Hlen. unfold unique_name. rewrite splitext_extension.
  by apply unique_name_entry_name.
Qed.

(** An upload that passes both checks either ends in an exception and
    leaves the state as it was, or stores the file under the generated
    name. *)
Lemma upload_file_outcome (cfg : settings) (f : UploadFile) (urandom : list byte)
    (st : state) (storage : list string) :
  accepted cfg f →
  length urandom = 16%nat →
  FS.resolve (fs st) (cwd cfg) (UPLOAD_DIR cfg) = Return storage →
  (∃ e, upload_file cfg f urandom st = (Raise e, st)) ∨
  (FS.lstat (fs st) storage = Some Dir ∧
   FS.lstat (fs st) (storage ++ [unique_name f urandom]) ≠ Some Dir ∧
   upload_file cfg f urandom st =
   (Return {| url := "/images/" +:+ unique_name f urandom |},
    {| fs := <[storage ++ [unique_name f urandom] := File (file f)]> (fs st);
       log := log st ++
         [(INFO, "Успех: изображение " +:+ unique_name f urandom +:+ " загружено.")] |})).
Proof.
  intros [Htype Hsize] Hlen Hdir.
  pose proof (unique_name_entry f urandom Hlen) as (Hn & H1 & H2 & H3).
  rewrite upload_file_run, Htype. cbn [negb].
  rewrite Z.gtb_ltb, (proj2 (Z.ltb_ge _ _)) by lia. cbv zeta.
  rewrite <- splitext_extension. fold (unique_name f urandom).
  destruct (write_file cfg _ (file f) st) as [[u|e] st'] eqn:Hw.
  - right. apply write_file_Return in Hw as (p & Hr & Hp & Hparent & ->).
    rewrite (resolve_join _ _ storage) in Hr by done. cbn [FS.walk] in Hr.
    destruct (FS.lstat (fs st) storage) as [[]|] eqn:Hst; try done.
    rewrite step_entry_name in Hr by done. injection Hr as <-. done.
  - left. apply write_file_raise in Hw as [-> _]. eauto.
Qed.

(** Writing under an entry name of the storage directory, case by case. *)
Lemma write_file_entry_cases (cfg : settings) (storage : list string) (n : string)
    (data : list byte) (st : state) :
  within_limits (os_path_join (UPLOAD_DIR cfg) n) = true →
  FS.resolve (fs st) (cwd cfg) (UPLOAD_DIR cfg) = Return storage →
  entry_name n →
  write_file cfg (os_path_join (UPLOAD_DIR cfg) n) data st =
  match FS.lstat (fs st) storage with
  | Some Dir =>
      match FS.lstat (fs st) (storage ++ [n]) with
      | Some Dir => (Raise IsADirectoryError, st)
      | _ => (Return tt, {| fs := <[storage ++ [n] := File data]> (fs st); log := log st |})
      end
  | Some (File _) => (Raise NotADirectoryError, st)
  | None => (Raise FileNotFoundError, st)
  end.
Proof.
  intros Hlim Hdir (Hn & H1 & H2 & H3). rewrite write_file_within by done.
  rewrite (resolve_join _ _ storage) by done. cbn [FS.walk].
  destruct (FS.lstat (fs st) storage) as [[]|] eqn:Hst; [done| |done].
  rewrite step_entry_name by done. rewrite removelast_last, Hst.
  by destruct (FS.lstat (fs st) (storage ++ [n])) as [[]|].
Qed.

(** An upload that passes both checks and whose path [open] does not
    refuse, by what the write meets. *)
Lemma upload_file_accepted_run (cfg : settings) (f : UploadFile) (urandom : list byte)
    (st : state) (storage : list string) :
  accepted cfg f →
  length urandom = 16%nat →
  within_limits (os_path_join (UPLOAD_DIR cfg) (unique_name f urandom)) = true →
  FS.resolve (fs st) (cwd cfg) (UPLOAD_DIR cfg) = Return storage →
  upload_file cfg f urandom st =
  match FS.lstat (fs st) storage with
  | Some Dir =>
      match FS.lstat (fs st) (storage ++ [unique_name f urandom]) with
      | Some Dir => (Raise IsADirectoryError, st)
      | _ =>
          (Return {| url := "/images/" +:+ unique_name f urandom |},
           {| fs := <[storage ++ [unique_name f urandom] := File (file f)]> (fs st);
              log := log st ++
                [(INFO, "Успех: изображение " +:+ unique_name f urandom +:+ " загружено.")] |})
      end
  | Some (File _) => (Raise NotADirectoryError, st)
  | None => (Raise FileNotFoundError, st)
  end.
Proof.
  intros [Htype Hsize] Hlen Hlim Hdir.
  pose proof (unique_name_entry f urandom Hlen) as Hentry.
  rewrite upload_file_run, Htype. cbn [negb].
  rewrite Z.gtb_ltb, (proj2 (Z.ltb_ge _ _)) by lia. cbv zeta.
  rewrite <- splitext_extension. fold (unique_name f urandom).
  rewrite (write_file_entry_cases cfg storage) by done.
  destruct (FS.lstat (fs st) storage) as [[]|]; [done| |done].
  by destruct (FS.lstat (fs st) (storage ++ [unique_name f urandom])) as [[]|].
Qed.

(** X1: whatever the client calls the file, also a name with separators
    or parent segments, an upload changes nothing in the file system but
    the entry of the generated name in the storage directory. *)
Theorem upload_changes_only_its_entry
    (cfg : settings) (f : UploadFile) (urandom : list byte) (st : state)
    (storage q : list string) :
  length urandom = 16%nat →
  FS.resolve (fs st) (cwd cfg) (UPLOAD_DIR cfg) = Return storage →
  q ≠ storage ++ [unique_name f urandom] →
  fs (upload_file cfg f urandom st).2 !! q = fs st !! q.
Proof.
  intros Hlen Hdir Hq.
  destruct (content_type_allowed (content_type f)) eqn:Htype;
    [|by rewrite upload_file_run, Htype].
  destruct (Z.ltb_spec (MAX_FILE_SIZE_MB cfg * 1024 * 1024) (Z.of_nat (length (file f))))
    as [Hbig|Hsmall].
  { rewrite upload_file_run, Htype. cbn [negb]. by rewrite (proj2 (Z.gtb_gt _ _)) by lia. }
  destruct (upload_file_outcome cfg f urandom st storage) as [[e ->]|(_ & _ & ->)];
    [done..| |]; simpl; by rewrite ?lookup_insert_ne.
Qed.

Lemma upload_changes_only_its_entry_witness :
  fs (upload_file default_settings
        {| filename := "../../etc/passwd"; content_type := Some "image/png";
           file := [x00]%byte |}
        urandom_example st_small).2 !! ["etc"; "passwd"]
  = fs st_small !! ["etc"; "passwd"].
Proof.
  apply (upload_changes_only_its_entry default_settings _ urandom_example st_small
           ["app"; "images"]); [reflexivity|reflexivity|].
  by vm_compute.
Defined.

Lemma last_dot_suffix_shape (s : string) :
  last_dot_suffix s = "" ∨
  ∃ b, last_dot_suffix s = String Str.extsep b ∧ Str.contains Str.extsep b = false.
Proof.
  induction s as [|x s IH]; simpl; [by left|].
  destruct (Str.contains Str.extsep s) eqn:Hs; [done|].
  destruct (Ascii.eqb_spec x Str.extsep) as [->|]; [|by left].
  right. by exists s.
Qed.

Lemma forallb_hexdigit_no_dot (s : string) :
  Str.forallb UUID.is_hexdigit s = true → Str.contains Str.extsep s = false.
Proof.
  induction s as [|x s IH]; simpl; [done|].
  intros [Hx Hs]%andb_prop. rewrite (IH Hs).
  destruct (Ascii.eqb_spec x Str.extsep) as [->|]; [|done]. by vm_compute in Hx.
Qed.

(** X2: the stored name keeps the extension of the client's name:
    [os.path.splitext] gives the same extension for both. *)
Theorem stored_name_keeps_extension (f : UploadFile) (urandom : list byte) :
  length urandom = 16%nat →
  (os_path_splitext (unique_name f urandom)).2 = (os_path_splitext (filename f)).2.
Proof.
  intros Hlen. unfold unique_name. rewrite !splitext_extension.
  destruct (uuid4_hex_shape urandom Hlen) as [Hl Hhex].
  pose proof (unique_name_entry_name urandom (filename f) Hlen) as [Hns _].
  pose proof (forallb_hexdigit_no_dot _ Hhex) as Hnd.
  pose proof (last_dot_suffix_shape (lstrip_dots (basename (filename f)))) as Hshape.
  change (last_dot_suffix (lstrip_dots (basename (filename f))))
    with (extension (filename f)) in Hshape.
  revert Hns Hshape. generalize (extension (filename f)). intros ext Hns Hshape.
  revert Hl Hnd Hns. generalize (UUID.uuid4_hex urandom). intros tok Hl Hnd Hns.
  assert (lstrip_dots (tok +:+ ext) = tok +:+ ext) as Hstrip.
  { destruct tok as [|c tok]; [done|]. rewrite app_String. simpl.
    simpl in Hnd. by destruct (Ascii.eqb c Str.extsep). }
  unfold extension, basename.
  rewrite (split_no_sep _ _ Hns). cbn [List.last]. rewrite Hstrip.
  destruct Hshape as [->|(b & -> & Hb)].
  - rewrite app_empty_r. by apply last_dot_suffix_absent.
  - by apply last_dot_suffix_app.
Qed.

Lemma stored_name_keeps_extension_witness :
  (os_path_splitext (unique_name cat_gif urandom_example)).2 = ".gif".
Proof. exact (stored_name_keeps_extension cat_gif urandom_example eq_refl). Defined.

(** Only an upload that passes both checks returns. *)
Lemma upload_returns_accepted (cfg : settings) (f : UploadFile) (urandom : list byte)
    (st : state) (r : upload_response) :
  (upload_file cfg f urandom st).1 = Return r → accepted cfg f.
Proof.
  rewrite upload_file_run. unfold accepted.
  destruct (content_type_allowed (content_type f)); [|done]. cbn [negb].
  destruct (Z.gtb_spec (Z.of_nat (length (file f))) (MAX_FILE_SIZE_MB cfg * 1024 * 1024));
    [done|]. by split.
Qed.

(** What a returning upload answers, and what the storage directory
    lists afterwards. *)
Lemma upload_Return_listdir
    (cfg : settings) (f : UploadFile) (urandom : list byte) (st : state)
    (storage : list string) (r : upload_response) :
  length urandom = 16%nat →
  FS.resolve (fs st) (cwd cfg) (UPLOAD_DIR cfg) = Return storage →
  (upload_file cfg f urandom st).1 = Return r →
  r = {| url := "/images/" +:+ unique_name f urandom |} ∧
  ∃ entries,
    (os_listdir cfg (UPLOAD_DIR cfg) (upload_file cfg f urandom st).2).1 = Return entries ∧
    ∀ n, n ∈ entries ↔
         n = unique_name f urandom ∨ n ∈ FS.children (fs st) storage.
Proof.
  intros Hlen Hdir Hret.
  pose proof (upload_returns_accepted _ _ _ _ _ Hret) as Hacc.
  destruct (upload_file_outcome cfg f urandom st storage Hacc Hlen Hdir)
    as [[e He]|(Hst & Hfree & Hrun)]; [by rewrite He in Hret|].
  rewrite Hrun in Hret |- *. cbn [fst snd] in *.
  set (name := unique_name f urandom) in *.
  assert (same_dirs (fs st) (<[storage ++ [name] := File (file f)]> (fs st))) as Hd
    by (by apply same_dirs_insert_file).
  split; [by simplify_eq|].
  exists (FS.children (<[storage ++ [name] := File (file f)]> (fs st)) storage).
  split.
  - unfold os_listdir. rewrite bind_run. cbn [get_fs fs]. rewrite bind_run. unfold lift.
    rewrite (resolve_same_dirs _ _ _ _ _ Hd Hdir).
    by rewrite (proj1 (Hd storage) Hst).
  - intros n. rewrite !elem_of_children.
    destruct (decide (n = name)) as [->|Hne].
    + rewrite lookup_insert_eq. split; [by left|eauto].
    + rewrite lookup_insert_ne.
      * split; [by right|]. by intros [?|?].
      * intros Heq%app_inv_head. by simplify_eq.
Qed.

(** X3: after an upload that returned, [os.listdir] on the storage
    directory shows the stored name and, besides it, exactly the names it
    showed before. *)
Theorem upload_then_listdir
    (cfg : settings) (f : UploadFile) (urandom : list byte) (st : state)
    (storage : list string) (r : upload_response) :
  length urandom = 16%nat →
  FS.resolve (fs st) (cwd cfg) (UPLOAD_DIR cfg) = Return storage →
  (upload_file cfg f urandom st).1 = Return r →
  ∃ entries,
    (os_listdir cfg (UPLOAD_DIR cfg) (upload_file cfg f urandom st).2).1 = Return entries ∧
    ∀ n, n ∈ entries ↔
         n = unique_name f urandom ∨ n ∈ FS.children (fs st) storage.
Proof.
  intros Hlen Hdir Hret.
  by destruct (upload_Return_listdir cfg f urandom st storage r Hlen Hdir Hret) as [_ ?].
Qed.

Lemma upload_then_listdir_witness :
  ∃ entries,
    (os_listdir default_settings (UPLOAD_DIR default_settings)
       (upload_file default_settings cat_gif urandom_example st_small).2).1 = Return entries ∧
    ∀ n, n ∈ entries ↔
         n = unique_name cat_gif urandom_example ∨
         n ∈ FS.children (fs st_small) ["app"; "images"].
Proof.
  apply (upload_then_listdir default_settings cat_gif urandom_example st_small
           ["app"; "images"] {| url := "/images/000102030405460788090a0b0c0d0e0f.gif" |});
    [reflexivity|reflexivity|by vm_compute].
Defined.

(** The components of the path that [os.path.join] builds from a
    directory and a name without separator. *)
Lemma split_join (dir n : string) :
  dir ≠ "" → no_sep n →
  ∃ pre,
    Str.split Str.sep (os_path_join dir n) = pre ++ [n] ∧
    (Str.split Str.sep dir = pre ∨ Str.split Str.sep dir = pre ++ [""]) ∧
    Str.startswith Str.sep (os_path_join dir n) = Str.startswith Str.sep dir ∧
    os_path_join dir n ≠ "".
Proof.
  intros Hne Hn. unfold os_path_join, no_sep in *.
  assert (Str.startswith Str.sep n = false) as ->.
  { destruct n as [|x n]; [done|]. simpl in *. by destruct (Ascii.eqb x Str.sep). }
  rewrite (proj2 (String.eqb_neq _ _) Hne). simpl.
  destruct (Str.endswith Str.sep dir) eqn:Hend.
  - apply endswith_inv in Hend as [d' ->].
    rewrite app_assoc_str, app_String, app_empty_l.
    exists (Str.split Str.sep d').
    rewrite !split_app_sep, (split_no_sep _ n Hn). simpl.
    split; [done|]. split; [by right|]. split; [by destruct d'|by destruct d'].
  - change (dir +:+ "/" +:+ n) with (dir +:+ String Str.sep n).
    exists (Str.split Str.sep dir).
    rewrite split_app_sep, (split_no_sep _ n Hn).
    split; [done|]. split; [by left|]. split; [by apply startswith_app|].
    by intros E%app_eq_empty.
Qed.

Lemma walk_limited_app (f : filesystem) (cur : list string) (xs ys : list string) :
  FS.walk_limited f cur (xs ++ ys) =
  match FS.walk_limited f cur xs with
  | Return p => FS.walk_limited f p ys
  | Raise e => Raise e
  end.
Proof.
  revert cur. induction xs as [|x xs IH]; intros cur; simpl; [done|].
  destruct (FS.lstat f cur) as [[]|]; try done.
  destruct (FS.NAME_MAX <? Str.len x); [done|]. apply IH.
Qed.

(** With the components of the directory within [NAME_MAX] and the
    joined path shorter than [PATH_MAX], the lookup that [open] makes
    comes to searching the name in the storage directory. *)
Lemma resolve_limited_join (f : filesystem) (cwd storage : list string) (dir n : string) :
  FS.resolve f cwd dir = Return storage →
  no_sep n →
  forallb (fun c => Str.len c <=? FS.NAME_MAX) (Str.split Str.sep dir) = true →
  Str.len (os_path_join dir n) < FS.PATH_MAX →
  FS.resolve_limited f cwd (os_path_join dir n) = FS.walk_limited f storage [n].
Proof.
  intros Hdir Hn Hcomps Hlen.
  assert (dir ≠ "") as Hne by (by intros ->).
  destruct (split_join dir n Hne Hn) as (pre & Hsplit & Hpre & Hstart & Hnonempty).
  unfold FS.resolve_limited. unfold FS.resolve in Hdir.
  rewrite (proj2 (String.eqb_neq _ _) Hne) in Hdir.
  rewrite (proj2 (String.eqb_neq _ _) Hnonempty), (proj2 (Z.leb_gt _ _)) by done.
  rewrite Hstart, Hsplit, walk_limited_app.
  destruct Hpre as [Hpre|Hpre]; rewrite Hpre in Hdir, Hcomps.
  - by rewrite walk_limited_within, Hdir.
  - rewrite forallb_app in Hcomps. apply andb_prop in Hcomps as [Hcomps _].
    rewrite walk_limited_within by done. rewrite walk_app in Hdir.
    destruct (FS.walk f _ pre) as [q|e]; [|done]. simpl in Hdir.
    destruct (FS.lstat f q) as [[]|]; try done. by injection Hdir as <-.
Qed.

(** X4: an upload that passes both checks but cannot be written ends in
    the exception of [open], with nothing written and nothing logged:
    [ValueError] when the generated path holds a NUL byte, [OSError] with
    [ENAMETOOLONG] when it is [PATH_MAX] bytes or longer, or when the
    generated name is longer than [NAME_MAX] in an existing storage
    directory; and for a path within these limits [FileNotFoundError]
    when the storage directory is missing, [NotADirectoryError] when a
    regular file stands in its place, [IsADirectoryError] when a directory
    has the generated name. *)
Theorem upload_write_errors
    (cfg : settings) (f : UploadFile) (urandom : list byte) (st : state)
    (storage : list string) :
  accepted cfg f →
  length urandom = 16%nat →
  FS.resolve (fs st) (cwd cfg) (UPLOAD_DIR cfg) = Return storage →
  (Str.contains Ascii.zero (os_path_join (UPLOAD_DIR cfg) (unique_name f urandom)) = true →
     upload_file cfg f urandom st = (Raise ValueError, st)) ∧
  (Str.contains Ascii.zero (os_path_join (UPLOAD_DIR cfg) (unique_name f urandom)) = false →
   FS.PATH_MAX <= Str.len (os_path_join (UPLOAD_DIR cfg) (unique_name f urandom)) →
     upload_file cfg f urandom st = (Raise (OSError ENAMETOOLONG), st)) ∧
  (Str.contains Ascii.zero (os_path_join (UPLOAD_DIR cfg) (unique_name f urandom)) = false →
   Str.len (os_path_join (UPLOAD_DIR cfg) (unique_name f urandom)) < FS.PATH_MAX →
   forallb (fun c => Str.len c <=? FS.NAME_MAX) (Str.split Str.sep (UPLOAD_DIR cfg)) = true →
   FS.lstat (fs st) storage = Some Dir →
   FS.NAME_MAX < Str.len (unique_name f urandom) →
     upload_file cfg f urandom st = (Raise (OSError ENAMETOOLONG), st)) ∧
  (within_limits (os_path_join (UPLOAD_DIR cfg) (unique_name f urandom)) = true →
     (FS.lstat (fs st) storage = None →
        upload_file cfg f urandom st = (Raise FileNotFoundError, st)) ∧
     (∀ d, FS.lstat (fs st) storage = Some (File d) →
        upload_file cfg f urandom st = (Raise NotADirectoryError, st)) ∧
     (FS.lstat (fs st) storage = Some Dir →
      FS.lstat (fs st) (storage ++ [unique_name f urandom]) = Some Dir →
        upload_file cfg f urandom st = (Raise IsADirectoryError, st))).
Proof.
  intros Hacc Hlen Hdir.
  pose proof (unique_name_entry f urandom Hlen) as (Hn & _).
  assert (upload_file cfg f urandom st =
    match write_file cfg (os_path_join (UPLOAD_DIR cfg) (unique_name f urandom))
            (file f) st with
    | (Return _, st') =>
        (Return {| url := "/images/" +:+ unique_name f urandom |},
         {| fs := fs st';
            log := log st' ++
              [(INFO, "Успех: изображение " +:+ unique_name f urandom +:+ " загружено.")] |})
    | (Raise e, st') => (Raise e, st')
    end) as Hrun.
  { destruct Hacc as [Htype Hsize]. rewrite upload_file_run, Htype. cbn [negb].
    rewrite Z.gtb_ltb, (proj2 (Z.ltb_ge _ _)) by lia. cbv zeta.
    by rewrite <- splitext_extension. }
  split; [|split; [|split]].
  - intros Hnul. by rewrite Hrun, write_file_run, Hnul.
  - intros Hnul Hlong. rewrite Hrun, write_file_run, Hnul.
    unfold FS.resolve_limited.
    destruct (String.eqb_spec (os_path_join (UPLOAD_DIR cfg) (unique_name f urandom)) "")
      as [E|_].
    { rewrite E in Hlong. by vm_compute in Hlong. }
    by rewrite (proj2 (Z.leb_le _ _)) by done.
  - intros Hnul Hshort Hcomps Hst Hname. rewrite Hrun, write_file_run, Hnul.
    rewrite (resolve_limited_join _ _ storage) by done. cbn [FS.walk_limited].
    by rewrite Hst, (proj2 (Z.ltb_lt _ _)) by done.
  - intros Hlim.
    rewrite (upload_file_accepted_run cfg f urandom st storage) by done.
    split; [|split].
    + by intros ->.
    + by intros d ->.
    + by intros -> ->.
Qed.

Lemma upload_write_errors_witness :
  upload_file default_settings cat_gif urandom_example
    {| fs := <[ ["app"] := Dir ]> ∅; log := [] |}
  = (Raise FileNotFoundError, {| fs := <[ ["app"] := Dir ]> ∅; log := [] |}).
Proof.
  refine (proj1 (proj2 (proj2 (proj2
    (upload_write_errors default_settings cat_gif urandom_example
       {| fs := <[ ["app"] := Dir ]> ∅; log := [] |} ["app"; "images"]
       _ eq_refl eq_refl))) _) eq_refl).
  - split; [reflexivity|by vm_compute].
  - by vm_compute.
Defined.

(** X5: when the generated name was free, uploading and then deleting
    the stored name with [delete_image] succeeds and gives back the file
    system as it was. *)
Theorem upload_then_delete
    (cfg : settings) (f : UploadFile) (urandom : list byte) (st : state)
    (storage : list string) (r : upload_response) :
  length urandom = 16%nat →
  FS.resolve (fs st) (cwd cfg) (UPLOAD_DIR cfg) = Return storage →
  fs st !! (storage ++ [unique_name f urandom]) = None →
  (upload_file cfg f urandom st).1 = Return r →
  (delete_image cfg (unique_name f urandom) (upload_file cfg f urandom st).2).1
    = Return {| detail := "Файл удалён" |} ∧
  fs (delete_image cfg (unique_name f urandom) (upload_file cfg f urandom st).2).2 = fs st.
Proof.
  intros Hlen Hdir Hnew Hret.
  pose proof (upload_returns_accepted _ _ _ _ _ Hret) as Hacc.
  pose proof (unique_name_entry f urandom Hlen) as Hentry.
  destruct (upload_file_outcome cfg f urandom st storage Hacc Hlen Hdir)
    as [[e He]|(Hst & Hfree & Hrun)]; [by rewrite He in Hret|].
  rewrite Hrun. cbn [snd].
  set (name := unique_name f urandom) in *.
  assert (same_dirs (fs st) (<[storage ++ [name] := File (file f)]> (fs st))) as Hd
    by (by apply same_dirs_insert_file).
  rewrite delete_image_run. cbn [fs].
  rewrite (classify_entry cfg _ storage); [| |by apply Hd|done].
  - rewrite lookup_insert_eq. cbn [fst snd fs]. split; [done|].
    rewrite delete_insert_eq. by apply delete_id.
  - by apply (resolve_same_dirs (fs st)).
Qed.

Lemma upload_then_delete_witness :
  fs (delete_image default_settings (unique_name cat_gif urandom_example)
        (upload_file default_settings cat_gif urandom_example st_small).2).2 = fs st_small.
Proof.
  refine (proj2 (upload_then_delete default_settings cat_gif urandom_example st_small
                   ["app"; "images"]
                   {| url := "/images/000102030405460788090a0b0c0d0e0f.gif" |}
                   eq_refl eq_refl _ _)).
  - by vm_compute.
  - by vm_compute.
Defined.

(** * Further properties of the deletion handlers *)

Section DeletionMore.

Variable cfg : settings.




Lemma delete_selected_loop_one_by_one (names del nf : list string) (st : state)
    (r : list string * list string) (st' : state) :
  delete_selected_loop cfg names del nf st = (Return r, st') →
  st' = delete_one_by_one cfg names st.
Proof.
  unfold delete_one_by_one.
  revert del nf st. induction names as [|n names IH]; intros del nf st.
  - by intros [= _ <-].
  - rewrite delete_selected_loop_cons. cbn [foldl]. rewrite delete_image_run.
    destruct (classify cfg (fs st) _) as [p| |]; [apply IH|done|apply IH].
Qed.

End DeletionMore.

(** X6: whatever names they are given, also names with separators or
    parent segments, the deletion handlers only ever remove regular
    files: every path left holds what it held before, no entry is created
    or rewritten, and the directories are the same as before. *)
Theorem deletion_only_removes_files (cfg : settings) (st : state) :
  (∀ names,
     fs (delete_selected cfg names st).2 ⊆ fs st ∧
     same_dirs (fs st) (fs (delete_selected cfg names st).2)) ∧
  (∀ n,
     fs (delete_image cfg n st).2 ⊆ fs st ∧
     same_dirs (fs st) (fs (delete_image cfg n st).2)).
Proof.
  split.
  - intros names. rewrite delete_selected_run.
    pose proof (delete_selected_loop_shrinks cfg names [] [] st) as Hshr.
    by destruct (delete_selected_loop cfg names [] [] st) as [[r|e] st'].
  - intros n. rewrite delete_image_run.
    destruct (classify cfg (fs st) _) as [p| |] eqn:Hc;
      [|by split; [|apply same_dirs_refl]..].
    apply classify_TFile in Hc as [_ [d Hl]]. cbn [snd fs]. split.
    + apply delete_subseteq.
    + by eapply same_dirs_delete_file.
Qed.



(** X8: a bulk deletion that returns leaves the same state, file system
    and log, as deleting the names one request at a time with
    [delete_image], in the same order. *)
Theorem delete_selected_one_by_one (cfg : settings) (names : list string) (st st' : state)
    (r : delete_selected_response) :
  delete_selected cfg names st = (Return r, st') →
  st' = delete_one_by_one cfg names st.
Proof.
  rewrite delete_selected_run.
  destruct (delete_selected_loop cfg names [] [] st) as [[r'|e] st1] eqn:Hrun; [|done].
  intros [= _ <-]. by eapply delete_selected_loop_one_by_one.
Qed.

Lemma delete_selected_one_by_one_witness :
  (delete_selected default_settings ["zz.png"; "a.png"] st_small).2
  = delete_one_by_one default_settings ["zz.png"; "a.png"] st_small.
Proof.
  refine (delete_selected_one_by_one default_settings ["zz.png"; "a.png"] st_small _
            {| deleted := ["a.png"]; not_found := ["zz.png"] |} _).
  by vm_compute.
Defined.

(** X9: deleting the same name again after a successful [delete_image]
    is answered with 404 and leaves the file system as the first call
    left it. *)
Theorem delete_image_twice (cfg : settings) (n : string) (st : state) (d : delete_response) :
  (delete_image cfg n st).1 = Return d →
  (delete_image cfg n (delete_image cfg n st).2).1
    = Raise (HTTPException 404 "Файл не найден") ∧
  fs (delete_image cfg n (delete_image cfg n st).2).2 = fs (delete_image cfg n st).2.
Proof.
  rewrite (delete_image_run cfg n st).
  destruct (classify cfg (fs st) _) as [p| |] eqn:Hc; [|done..]. intros _.
  apply classify_TFile in Hc as [Hr [x Hl]]. cbn [snd].
  rewrite delete_image_run. cbn [fs].
  assert (classify cfg (delete p (fs st)) (os_path_join (UPLOAD_DIR cfg) n) = TNone) as ->;
    [|done].
  unfold classify.
  rewrite (resolve_same_dirs _ _ _ _ _ (same_dirs_delete_file _ _ _ Hl) Hr).
  destruct p as [|c p]; [done|]. simpl. by rewrite lookup_delete_eq.
Qed.

Lemma delete_image_twice_witness :
  (delete_image default_settings "a.png" (delete_image default_settings "a.png" st_small).2).1
  = Raise (HTTPException 404 "Файл не найден").
Proof.
  refine (proj1 (delete_image_twice default_settings "a.png" st_small
                   {| detail := "Файл удалён" |} _)).
  by vm_compute.
Defined.

(** X10: after a successful [delete_image] of a bare name, [os.listdir]
    on the storage directory no longer shows that name and shows every
    other name it showed before. *)
Theorem delete_then_listdir (cfg : settings) (n : string) (st : state)
    (storage : list string) (d : delete_response) :
  FS.resolve (fs st) (cwd cfg) (UPLOAD_DIR cfg) = Return storage →
  bare n →
  (delete_image cfg n st).1 = Return d →
  ∃ entries,
    (os_listdir cfg (UPLOAD_DIR cfg) (delete_image cfg n st).2).1 = Return entries ∧
    ∀ m, m ∈ entries ↔ m ≠ n ∧ m ∈ FS.children (fs st) storage.
Proof.
  intros Hdir Hn. rewrite delete_image_run.
  destruct (classify cfg (fs st) _) as [p| |] eqn:Hc; [|done..]. intros _.
  destruct (classify_bare_TFile cfg _ storage p n Hdir Hn Hc) as [-> _].
  apply classify_TFile in Hc as [Hr [x Hl]].
  assert (FS.lstat (fs st) storage = Some Dir) as Hst.
  { rewrite (resolve_join _ _ storage) in Hr; [|done|apply Hn]. simpl in Hr.
    by destruct (FS.lstat (fs st) storage) as [[]|]. }
  pose proof (same_dirs_delete_file _ _ _ Hl) as Hd. cbn [snd].
  exists (FS.children (delete (storage ++ [n]) (fs st)) storage). split.
  - unfold os_listdir. rewrite bind_run. cbn [get_fs fs]. rewrite bind_run. unfold lift.
    rewrite (resolve_same_dirs _ _ _ _ _ Hd Hdir).
    by rewrite (proj1 (Hd storage) Hst).
  - intros m. rewrite !elem_of_children.
    destruct (decide (m = n)) as [->|Hne].
    + rewrite lookup_delete_eq. split; [by intros [? ?]|by intros [? _]].
    + rewrite lookup_delete_ne; [by split; [|intros [_ ?]]|].
      intros Heq%app_inv_head. by simplify_eq.
Qed.

Lemma delete_then_listdir_witness :
  ∃ entries,
    (os_listdir default_settings (UPLOAD_DIR default_settings)
       (delete_image default_settings "a.png" st_small).2).1 = Return entries ∧
    ∀ m, m ∈ entries ↔ m ≠ "a.png" ∧ m ∈ FS.children (fs st_small) ["app"; "images"].
Proof.
  apply (delete_then_listdir default_settings "a.png" st_small ["app"; "images"]
           {| detail := "Файл удалён" |}); [reflexivity| |by vm_compute].
  split; [reflexivity|discriminate].
Defined.



(** * Further properties of the listing handler *)

(** A slice is a run of consecutive entries of the list. *)
Lemma py_slice_take_drop {A} (l : list A) (lo hi : Z) :
  ∃ a b, py_slice l lo hi = take a (drop b l).
Proof. unfold py_slice. eauto. Qed.

Lemma py_slice_sublist {A} (l : list A) (lo hi : Z) : py_slice l lo hi `sublist_of` l.
Proof.
  unfold py_slice. etrans; [apply sublist_take|apply sublist_drop].
Qed.

Lemma py_slice_StronglySorted {A} (R : relation A) (l : list A) (lo hi : Z) :
  StronglySorted R l → StronglySorted R (py_slice l lo hi).
Proof.
  intros Hl. unfold py_slice.
  set (b := Z.to_nat (slice_index (Z.of_nat (length l)) lo)).
  rewrite <- (take_drop b l) in Hl. apply StronglySorted_app_1_r in Hl.
  set (a := Z.to_nat _).
  rewrite <- (take_drop a (drop b l)) in Hl. by apply StronglySorted_app_1_l in Hl.
Qed.

(** A slice of width [w] holds at most [w] entries, wherever it starts. *)
Lemma py_slice_length {A} (l : list A) (lo w : Z) :
  0 <= w → Z.of_nat (length (py_slice l lo (lo + w))) <= w.
Proof.
  intros Hw. unfold py_slice. rewrite length_take.
  unfold slice_index.
  destruct (Z.ltb_spec lo 0); destruct (Z.ltb_spec (lo + w) 0); lia.
Qed.

Lemma NoDup_omap_inj {A B} (g : A → option B) (l : list A) :
  (∀ x y z, g x = Some z → g y = Some z → x = y) → NoDup l → NoDup (omap g l).
Proof.
  intros Hinj Hl. induction Hl as [|x l Hx Hl IH]; simpl; [constructor|].
  destruct (g x) as [z|] eqn:Hz; [|done]. constructor; [|done].
  intros (y & Hy & Hgy)%list_elem_of_omap.
  by rewrite (Hinj x y z Hz Hgy) in Hx.
Qed.

Lemma child_of_Some (p k : list string) (n : string) :
  FS.child_of p k = Some n → k = p ++ [n].
Proof.
  unfold FS.child_of. destruct (drop (length p) k) as [|m [|]] eqn:Hd; try done.
  case_bool_decide as Ht; [|done]. intros [= ->].
  by rewrite <- (take_drop (length p) k), Ht, Hd.
Qed.

(** A directory has no two entries of the same name. *)
Lemma NoDup_children (f : filesystem) (p : list string) : NoDup (FS.children f p).
Proof.
  unfold FS.children. apply NoDup_omap_inj; [|apply NoDup_fst_map_to_list].
  intros x y z Hx%child_of_Some Hy%child_of_Some. congruence.
Qed.

Section ListingMore.

Variable cfg : settings.

(** What a successful [os.listdir] on the storage directory returned. *)
Lemma os_listdir_Return (st : state) (entries : list string) :
  (os_listdir cfg (UPLOAD_DIR cfg) st).1 = Return entries →
  ∃ storage,
    FS.resolve (fs st) (cwd cfg) (UPLOAD_DIR cfg) = Return storage ∧
    FS.lstat (fs st) storage = Some Dir ∧
    entries = FS.children (fs st) storage.
Proof.
  unfold os_listdir. rewrite bind_run. cbn [get_fs]. rewrite bind_run. unfold lift.
  destruct (FS.resolve (fs st) (cwd cfg) (UPLOAD_DIR cfg)) as [p|e]; [|done].
  destruct (FS.lstat (fs st) p) as [[]|] eqn:Hl; try done.
  intros [= <-]. eauto.
Qed.

Lemma page_names_run (st : state) (entries : list string) (k : Z) :
  (os_listdir cfg (UPLOAD_DIR cfg) st).1 = Return entries →
  page_names cfg st k
  = py_slice (sorted entries) ((k - 1) * per_page) ((k - 1) * per_page + per_page).
Proof.
  intros Hls. unfold page_names. rewrite (images_page_run cfg k st entries Hls).
  cbn [fst images]. rewrite map_map. cbn [img_name]. apply map_id.
Qed.

(** A page from the first on is the next fifty names of the sorted
    listing. *)
Lemma page_names_take_drop (st : state) (entries : list string) (i : nat) :
  (os_listdir cfg (UPLOAD_DIR cfg) st).1 = Return entries →
  page_names cfg st (Z.of_nat (S i)) = take 50 (drop (50 * i) (sorted entries)).
Proof.
  intros Hls. rewrite (page_names_run st entries) by done. unfold per_page.
  rewrite py_slice_nonneg by lia. f_equal; [lia|]. f_equal. lia.
Qed.

(** Every entry of the storage directory is on some page from the first
    on. *)
Lemma entry_on_some_page (st : state) (entries : list string) (n : string) :
  (os_listdir cfg (UPLOAD_DIR cfg) st).1 = Return entries →
  n ∈ entries →
  ∃ k, 1 <= k ∧ n ∈ page_names cfg st k.
Proof.
  intros Hls Hn. rewrite <- (sorted_Permutation entries) in Hn.
  apply list_elem_of_lookup_1 in Hn as [i Hi].
  exists (Z.of_nat (S (i / 50))). split; [lia|].
  rewrite (page_names_take_drop st entries) by done.
  apply (list_elem_of_lookup_2 _ (i mod 50)).
  rewrite lookup_take_lt by (apply Nat.mod_upper_bound; lia).
  rewrite lookup_drop, <- Nat.div_mod_eq. done.
Qed.

End ListingMore.

(** X12: for every integer page number, also a negative one, a page
    never shows more than fifty images; its names are in the ascending
    order of Python's [sorted] (by code point, a byte that is not UTF-8
    counting as its surrogate escape), without repetition, each is an
    entry of the storage directory, and each image's URL is [/images/]
    followed by its name. *)
Theorem images_page_shape (cfg : settings) (st : state) (k : Z) (entries : list string) :
  (os_listdir cfg (UPLOAD_DIR cfg) st).1 = Return entries →
  ∃ ctx,
    (images_page cfg k st).1 = Return ctx ∧
    (length (images ctx) <= 50)%nat ∧
    StronglySorted Unicode.str_le (map img_name (images ctx)) ∧
    NoDup (map img_name (images ctx)) ∧
    (∀ n, n ∈ map img_name (images ctx) → n ∈ entries) ∧
    Forall (fun i => img_url i = "/images/" +:+ img_name i) (images ctx).
Proof.
  intros Hls. eexists. rewrite (images_page_run cfg k st entries Hls).
  split; [done|]. cbn [images]. rewrite map_map. cbn [img_name]. rewrite map_id.
  set (names := py_slice _ _ _).
  assert (names `sublist_of` sorted entries) as Hsub by apply py_slice_sublist.
  split; [|split; [|split; [|split]]].
  - rewrite length_map. subst names. unfold per_page.
    pose proof (py_slice_length (sorted entries) ((k - 1) * 50) 50). lia.
  - apply py_slice_StronglySorted, sorted_StronglySorted.
  - eapply sublist_NoDup; [|exact Hsub].
    rewrite sorted_Permutation.
    apply os_listdir_Return in Hls as (storage & _ & _ & ->). apply NoDup_children.
  - intros n Hn. rewrite <- (sorted_Permutation entries).
    by eapply elem_of_sublist.
  - apply List.Forall_map. by apply Forall_forall.
Qed.

Lemma images_page_shape_witness :
  ∃ ctx,
    (images_page default_settings (-1) (st_gallery 51)).1 = Return ctx ∧
    (length (images ctx) <= 50)%nat.
Proof.
  assert (∃ entries,
    (os_listdir default_settings (UPLOAD_DIR default_settings) (st_gallery 51)).1
      = Return entries) as [entries Hls].
  { eexists. vm_compute. reflexivity. }
  destruct (images_page_shape default_settings (st_gallery 51) (-1) entries Hls)
    as (ctx & Hctx & Hlen & _).
  exists ctx. split; [exact Hctx|exact Hlen].
Defined.

(** X13: from page zero on, [has_next] tells the truth: it is true
    exactly when the following page shows at least one image. *)
Theorem has_next_iff_next_page_nonempty
    (cfg : settings) (st : state) (k : Z) (entries : list string) :
  (os_listdir cfg (UPLOAD_DIR cfg) st).1 = Return entries →
  0 <= k →
  ∃ ctx ctx',
    (images_page cfg k st).1 = Return ctx ∧
    (images_page cfg (k + 1) st).1 = Return ctx' ∧
    (has_next ctx = true ↔ images ctx' ≠ []).
Proof.
  intros Hls Hk. eexists _, _.
  rewrite (images_page_run cfg k st entries Hls),
          (images_page_run cfg (k + 1) st entries Hls).
  split; [done|]. split; [done|]. cbn [has_next images]. unfold per_page.
  rewrite py_slice_nonneg by lia. rewrite Z.ltb_lt.
  replace (Z.to_nat ((k + 1 - 1) * 50 + 50 - (k + 1 - 1) * 50)) with 50%nat by lia.
  set (l := sorted entries).
  destruct (drop (Z.to_nat ((k + 1 - 1) * 50)) l) as [|x rest] eqn:Hd.
  - apply (f_equal length) in Hd. rewrite length_drop in Hd. simpl in Hd.
    split; [lia|done].
  - apply (f_equal length) in Hd. rewrite length_drop in Hd. simpl in Hd.
    split; [done|lia].
Qed.

Lemma has_next_iff_next_page_nonempty_witness :
  ∃ ctx ctx',
    (images_page default_settings 1 (st_gallery 51)).1 = Return ctx ∧
    (images_page default_settings (1 + 1) (st_gallery 51)).1 = Return ctx' ∧
    (has_next ctx = true ↔ images ctx' ≠ []).
Proof.
  assert (∃ entries,
    (os_listdir default_settings (UPLOAD_DIR default_settings) (st_gallery 51)).1
      = Return entries) as [entries Hls].
  { eexists. vm_compute. reflexivity. }
  exact (has_next_iff_next_page_nonempty default_settings (st_gallery 51) 1 entries Hls
           ltac:(lia)).
Defined.

(** X14: the pages one after another are the sorted listing: the names
    of pages 1 to [K] put end to end are its first [50 * K] names, hence
    the whole listing once [50 * K] reaches the number of entries. *)
Theorem pages_partition_listing (cfg : settings) (st : state) (entries : list string) (K : nat) :
  (os_listdir cfg (UPLOAD_DIR cfg) st).1 = Return entries →
  concat (map (fun i => page_names cfg st (Z.of_nat (S i))) (seq 0 K))
    = take (50 * K) (sorted entries) ∧
  ((length entries <= 50 * K)%nat →
   concat (map (fun i => page_names cfg st (Z.of_nat (S i))) (seq 0 K)) = sorted entries).
Proof.
  intros Hls.
  assert (concat (map (fun i => page_names cfg st (Z.of_nat (S i))) (seq 0 K))
          = take (50 * K) (sorted entries)) as Hcat.
  { induction K as [|K IH]; [done|].
    rewrite seq_S, map_app, concat_app, IH. simpl.
    rewrite app_nil_r, (page_names_take_drop cfg st entries) by done.
    rewrite take_take_drop. f_equal. lia. }
  split; [done|]. intros Hall. rewrite Hcat.
  apply take_ge. rewrite sorted_length. lia.
Qed.

Lemma pages_partition_listing_witness :
  ∃ entries,
    concat (map (fun i => page_names default_settings (st_gallery 51) (Z.of_nat (S i)))
                (seq 0 2))
    = sorted entries ∧ length entries = 51%nat.
Proof.
  assert (∃ entries,
    (os_listdir default_settings (UPLOAD_DIR default_settings) (st_gallery 51)).1
      = Return entries ∧ length entries = 51%nat) as (entries & Hls & Hlen).
  { eexists. split; vm_compute; reflexivity. }
  exists entries. split; [|exact Hlen].
  apply (proj2 (pages_partition_listing default_settings (st_gallery 51) entries 2 Hls)).
  rewrite Hlen. repeat constructor.
Defined.

(** X15: the listing handler never changes the state, and when the
    storage directory cannot be listed it ends in the [OSError] of
    [os.listdir]: [FileNotFoundError] when the directory is missing,
    [NotADirectoryError] when a regular file stands in its place. *)
Theorem images_page_read_only (cfg : settings) (st : state) (k : Z) :
  (images_page cfg k st).2 = st ∧
  (∀ storage,
     FS.resolve (fs st) (cwd cfg) (UPLOAD_DIR cfg) = Return storage →
     (FS.lstat (fs st) storage = None →
        (images_page cfg k st).1 = Raise FileNotFoundError) ∧
     (∀ d, FS.lstat (fs st) storage = Some (File d) →
        (images_page cfg k st).1 = Raise NotADirectoryError)).
Proof.
  unfold images_page. rewrite bind_run.
  pose proof (os_listdir_state cfg (UPLOAD_DIR cfg) st) as Hst.
  split.
  - destruct (os_listdir cfg (UPLOAD_DIR cfg) st) as [[entries|e] st'];
      simpl in *; by subst.
  - intros storage Hdir. unfold os_listdir. rewrite bind_run. cbn [get_fs].
    rewrite bind_run. unfold lift. rewrite Hdir. split.
    + by intros ->.
    + by intros d ->.
Qed.

Lemma images_page_read_only_witness :
  (images_page default_settings 1 {| fs := <[ ["app"] := Dir ]> ∅; log := [] |}).1
  = Raise FileNotFoundError.
Proof.
  exact (proj1 (proj2 (images_page_read_only default_settings
                         {| fs := <[ ["app"] := Dir ]> ∅; log := [] |} 1)
                  ["app"; "images"] eq_refl) eq_refl).
Defined.

(** * Uploads in the gallery, absolute names, and the log *)

(** X16: an uploaded picture is in the gallery: after an upload that
    returned, some page from the first on shows an image with the stored
    name and with the very URL the upload answered. *)
Theorem uploaded_image_is_listed
    (cfg : settings) (f : UploadFile) (urandom : list byte) (st : state)
    (storage : list string) (r : upload_response) :
  length urandom = 16%nat →
  FS.resolve (fs st) (cwd cfg) (UPLOAD_DIR cfg) = Return storage →
  (upload_file cfg f urandom st).1 = Return r →
  ∃ k ctx,
    1 <= k ∧
    (images_page cfg k (upload_file cfg f urandom st).2).1 = Return ctx ∧
    {| img_name := unique_name f urandom; img_url := url r |} ∈ images ctx.
Proof.
  intros Hlen Hdir Hret.
  destruct (upload_Return_listdir cfg f urandom st storage r Hlen Hdir Hret)
    as (-> & entries & Hls & Hentries).
  destruct (entry_on_some_page cfg _ entries (unique_name f urandom) Hls) as (k & Hk & Hin).
  { apply Hentries. by left. }
  rewrite (page_names_run cfg _ entries) in Hin by done.
  eexists k, _. rewrite (images_page_run cfg k _ entries Hls).
  split; [done|]. split; [done|]. cbn [images url].
  by apply (list_elem_of_fmap_2
    (fun n => {| img_name := n; img_url := "/images/" +:+ n |})).
Qed.

Lemma uploaded_image_is_listed_witness :
  ∃ k ctx,
    1 <= k ∧
    (images_page default_settings k
       (upload_file default_settings cat_gif urandom_example st_small).2).1 = Return ctx ∧
    {| img_name := unique_name cat_gif urandom_example;
       img_url := "/images/000102030405460788090a0b0c0d0e0f.gif" |} ∈ images ctx.
Proof.
  apply (uploaded_image_is_listed default_settings cat_gif urandom_example st_small
           ["app"; "images"] {| url := "/images/000102030405460788090a0b0c0d0e0f.gif" |});
    [reflexivity|reflexivity|by vm_compute].
Defined.





